(** * The filter-matching engine of [tgbox.api.utils.search_generator]

    A shallow embedding of the asynchronous generator
    [search_generator] (src/tgbox/api/utils.py, lines 199-399) and the
    properties of the search specification checked against it.

    The generator walks a source of box files, runs every file through
    the two filters of a [SearchFilter] (index 0: include, index 1:
    exclude) and yields the files for which both entries of
    [yield_result] stayed [True]. *)

From Stdlib Require Import ZArith String Ascii Bool Lia.
From stdpp Require Import base option list strings gmap.

Local Open Scope string_scope.
Local Open Scope list_scope.
Local Open Scope Z_scope.

(** ** Exceptions

    The exceptions the generator can end with: [re.error] from the
    regex library, the [AttributeError] of an attribute access on
    [None], and the [ValueError] raised at line 222. *)

Inductive exn : Type :=
  | ReError
  | AttributeError
  | ValueError.

Inductive res (A : Type) : Type :=
  | Ok (a : A)
  | Raise (e : exn).

Arguments Ok {A} a.
Arguments Raise {A} e.

#[global] Instance res_ret : MRet res := fun _ a => Ok a.
#[global] Instance res_bind : MBind res := fun _ _ k m =>
  match m with
  | Ok a => k a
  | Raise e => Raise e
  end.

(** ** Data model *)

(** The attributes of a box file read by the generator.  [size] stands
    for [file.file_size] of a remote box file and for [file.size] of a
    local one.  [cattrs] is [None] for an object without the [_cattrs]
    attribute, and the dictionary [file.cattrs] otherwise. *)
Module BoxFile.
Record t : Type := mk {
  id : Z;
  size : Z;
  mime : string;
  upload_time : Z;
  exported : bool;
  file_path : string;
  file_name : string;
  file_salt : string;
  verbyte : Z;
  cattrs : option (gmap string string)
}.
End BoxFile.

(** What the source yields, told apart by attribute probing at lines
    225-230: an object with [_message] is a remote box file, one with
    [_tgbox_db] is a local box file, anything else is neither. *)
Inductive Item : Type :=
  | RemoteBoxFile (f : BoxFile.t)
  | LocalBoxFile (f : BoxFile.t)
  | Foreign.

(** One of the two dictionaries of a [SearchFilter], by key.  A
    criterion of [cattrs] is a dictionary, iterated with [items()]. *)
Module Filter.
Record t : Type := mk {
  exported : option bool;
  re : bool;
  mime : list string;
  min_time : list Z;
  max_time : list Z;
  min_size : list Z;
  max_size : list Z;
  min_id : list Z;
  max_id : list Z;
  id : list Z;
  cattrs : list (list (string * string));
  file_path : list string;
  file_name : list string;
  file_salt : list string;
  verbyte : list Z
}.

Definition empty : t :=
  mk None false [] [] [] [] [] [] [] [] [] [] [] [] [].
End Filter.

Record SearchFilter : Type := {
  in_filters : Filter.t;
  ex_filters : Filter.t
}.

(** [lb.files(min_id=..., max_id=...)] of a decrypted local box. *)
Record DecryptedLocalBox : Type := {
  files : option Z -> option Z -> list Item
}.

(** Python truth value of the [exported] entry: [None] and [False] are
    both falsy. *)
Definition truthy (o : option bool) : bool :=
  match o with
  | Some true => true
  | _ => false
  end.

(** ** Matching primitives *)

(** [p in s] on strings. *)
Fixpoint contains (p s : string) : bool :=
  String.prefix p s ||
  match s with
  | EmptyString => false
  | String _ s' => contains p s'
  end.

(** The regex library ([regex.search], or [re.search] as a fallback,
    lines 20-23) is external: a pattern is compiled, which fails with
    [re.error] on a malformed one, and then searched for anywhere in
    the subject. *)
Class RegexLib : Type := {
  regex : Type;
  re_compile : string -> option regex;
  re_scan : regex -> string -> bool
}.

Section SearchGenerator.
Context `{RL : RegexLib}.

Definition re_search (p s : string) : res bool :=
  match re_compile p with
  | Some r => Ok (re_scan r s)
  | None => Raise ReError
  end.

(** Line 212. *)
Definition in_func (sf : SearchFilter) : string -> string -> res bool :=
  if Filter.re (in_filters sf) then re_search
  else fun p s => Ok (contains p s).

(** ** The blocks of the loop body

    Every block of the body of [for indx, filter in enumerate(...)]
    ends in one of three ways. *)
Inductive outcome : Type :=
  | Pass       (* [yield_result] untouched, the body goes on *)
  | Fail       (* [yield_result[indx] = False], the body goes on *)
  | FailBreak. (* [yield_result[indx] = False], then [break] *)

(** Lines 239-248. *)
Definition exported_block (indx : nat) (flt : Filter.t) (file : BoxFile.t)
  : outcome :=
  if truthy (Filter.exported flt) then
    if negb (eqb (BoxFile.exported file) (truthy (Filter.exported flt))) then
      if (indx =? 0)%nat then FailBreak else Pass
    else if eqb (BoxFile.exported file) (truthy (Filter.exported flt)) then
      if (indx =? 1)%nat then FailBreak else Pass
    else Pass
  else Pass.

(** A [for] loop whose body is [if test(x): ...; break]: [true] when
    the loop was left by [break], [false] when it ran to its [else]. *)
Fixpoint for_break {A : Type} (test : A -> res bool) (l : list A)
  : res bool :=
  match l with
  | [] => Ok false
  | x :: l' =>
      b ← test x;
      if b : bool then Ok true else for_break test l'
  end.

(** The for/else pattern of lines 250-259, shared by [mime], [id],
    [file_path], [file_name], [file_salt] and [verbyte]. *)
Definition set_block {A : Type} (indx : nat) (test : A -> res bool)
    (criteria : list A) : res outcome :=
  hit ← for_break test criteria;
  if hit : bool then
    mret (if (indx =? 1)%nat then Fail else Pass)
  else
    match criteria with
    | [] => mret Pass
    | _ :: _ => mret (if (indx =? 0)%nat then FailBreak else Pass)
    end.

(** The pattern of lines 261-270: a lower bound, [bounds[-1]]. *)
Definition min_block (indx : nat) (value : Z) (bounds : list Z) : outcome :=
  match last bounds with
  | None => Pass
  | Some b =>
      if value <? b then
        if (indx =? 0)%nat then FailBreak else Pass
      else if value >=? b then
        if (indx =? 1)%nat then FailBreak else Pass
      else Pass
  end.

(** The pattern of lines 272-281: an upper bound. *)
Definition max_block (indx : nat) (value : Z) (bounds : list Z) : outcome :=
  match last bounds with
  | None => Pass
  | Some b =>
      if value >? b then
        if (indx =? 0)%nat then FailBreak else Pass
      else if value <=? b then
        if (indx =? 1)%nat then FailBreak else Pass
      else Pass
  end.

(** Lines 340-345, the test of one [k, v] of a criterion. *)
Definition cattr_test (in_func : string -> string -> res bool)
    (fc : gmap string string) (kv : string * string) : res bool :=
  match fc !! kv.1 with
  | Some s => in_func kv.2 s
  | None => Ok false
  end.

(** Lines 339-350.  [unset] tells whether [yield_result[indx]] has
    been set to [False] by this loop.  The [else] at line 346 belongs
    to the loop over [cattr.items()], so its [break] leaves the loop
    over the criteria. *)
Fixpoint cattrs_loop (in_func : string -> string -> res bool) (indx : nat)
    (fc : gmap string string) (criteria rest : list (list (string * string)))
    (unset : bool) : res bool :=
  match rest with
  | [] => Ok unset
  | cattr :: rest' =>
      hit ← for_break (cattr_test in_func fc) cattr;
      if hit : bool then
        cattrs_loop in_func indx fc criteria rest'
          (if (indx =? 1)%nat then false else unset)
      else
        match criteria with
        | [] => cattrs_loop in_func indx fc criteria rest' unset
        | _ :: _ =>
            if (indx =? 0)%nat then Ok false
            else cattrs_loop in_func indx fc criteria rest' unset
        end
  end.

(** Lines 338-350. *)
Definition cattrs_block (in_func : string -> string -> res bool) (indx : nat)
    (flt : Filter.t) (file : BoxFile.t) : res outcome :=
  match BoxFile.cattrs file with
  | None => Ok Pass
  | Some fc =>
      unset ← cattrs_loop in_func indx fc (Filter.cattrs flt) (Filter.cattrs flt) true;
      mret (if unset : bool then Pass else Fail)
  end.

Definition eq_test (value : Z) (criterion : Z) : res bool :=
  Ok (value =? criterion).

(** The fields a filter constrains, in the order of the loop body. *)
Inductive field : Type :=
  | Exported | Mime | MinTime | MaxTime | MinSize | MaxSize | MinId | MaxId
  | Id | Cattrs | FilePath | FileName | FileSalt | Verbyte.

Definition fields : list field :=
  [Exported; Mime; MinTime; MaxTime; MinSize; MaxSize; MinId; MaxId;
   Id; Cattrs; FilePath; FileName; FileSalt; Verbyte].

(** The block of each field, lines 239-394. *)
Definition block (in_func : string -> string -> res bool) (file : BoxFile.t)
    (file_size : Z) (indx : nat) (flt : Filter.t) (fd : field) : res outcome :=
  match fd with
  | Exported => Ok (exported_block indx flt file)
  | Mime =>
      set_block indx (fun mime => in_func mime (BoxFile.mime file))
        (Filter.mime flt)
  | MinTime => Ok (min_block indx (BoxFile.upload_time file) (Filter.min_time flt))
  | MaxTime => Ok (max_block indx (BoxFile.upload_time file) (Filter.max_time flt))
  | MinSize => Ok (min_block indx file_size (Filter.min_size flt))
  | MaxSize => Ok (max_block indx file_size (Filter.max_size flt))
  | MinId => Ok (min_block indx (BoxFile.id file) (Filter.min_id flt))
  | MaxId => Ok (max_block indx (BoxFile.id file) (Filter.max_id flt))
  | Id => set_block indx (eq_test (BoxFile.id file)) (Filter.id flt)
  | Cattrs => cattrs_block in_func indx flt file
  | FilePath =>
      set_block indx
        (fun file_path => in_func file_path (BoxFile.file_path file))
        (Filter.file_path flt)
  | FileName =>
      set_block indx
        (fun file_name => in_func file_name (BoxFile.file_name file))
        (Filter.file_name flt)
  | FileSalt =>
      set_block indx
        (fun file_salt => in_func file_salt (BoxFile.file_salt file))
        (Filter.file_salt flt)
  | Verbyte =>
      set_block indx (fun verbyte => Ok (verbyte =? BoxFile.verbyte file))
        (Filter.verbyte flt)
  end.

(** ** The loop over the two filters *)

Inductive ctl : Type := Next | Break.

(** The body of the loop for one [indx, filter], lines 239-394: the
    blocks in order, on the list [yield_result]. *)
Fixpoint run_body (blocks : list (res outcome)) (indx : nat)
    (yield_result : list bool) : res (list bool * ctl) :=
  match blocks with
  | [] => Ok (yield_result, Next)
  | b :: blocks' =>
      o ← b;
      match o with
      | Pass => run_body blocks' indx yield_result
      | Fail => run_body blocks' indx (<[indx := false]> yield_result)
      | FailBreak => Ok (<[indx := false]> yield_result, Break)
      end
  end.

(** Line 238, over [enumerate((sf.in_filters, sf.ex_filters))]. *)
Fixpoint filters_loop (in_func : string -> string -> res bool)
    (file : BoxFile.t) (file_size : Z)
    (filters : list (nat * Filter.t)) (yield_result : list bool)
  : res (list bool) :=
  match filters with
  | [] => Ok yield_result
  | (indx, flt) :: filters' =>
      r ← run_body (map (block in_func file file_size indx flt) fields)
            indx yield_result;
      match r.2 with
      | Break => Ok r.1
      | Next => filters_loop in_func file file_size filters' r.1
      end
  end.

(** Lines 236-394: [yield_result] at line 396. *)
Definition yield_result (sf : SearchFilter) (file : BoxFile.t)
    (file_size : Z) : res (list bool) :=
  filters_loop (in_func sf) file file_size
    [(0%nat, in_filters sf); (1%nat, ex_filters sf)] [true; true].

(** Python's [all]. *)
Definition all (l : list bool) : bool := forallb (fun b => b) l.

(** One round of the loop at line 224 for a box file: whether it is
    yielded (line 396). *)
Definition evaluate (sf : SearchFilter) (file : BoxFile.t) (file_size : Z)
  : res bool :=
  yr ← yield_result sf file file_size;
  mret (all yr).

(** ** The generator *)

(** Lines 225-230: the attribute probing, [None] for [continue]. *)
Definition probe (file : Item) : option (BoxFile.t * Z) :=
  match file with
  | RemoteBoxFile f => Some (f, BoxFile.size f)
  | LocalBoxFile f => Some (f, BoxFile.size f)
  | Foreign => None
  end.

(** Lines 224-399 over a finite source: the files yielded, in the
    order of the [yield]s, and the exception that ended the
    iteration, if one did. *)
Fixpoint generate (sf : SearchFilter) (iter_from : list Item)
  : list Item * option exn :=
  match iter_from with
  | [] => ([], None)
  | file :: rest =>
      match probe file with
      | None => generate sf rest
      | Some (f, file_size) =>
          match evaluate sf f file_size with
          | Raise e => ([], Some e)
          | Ok true => let r := generate sf rest in (file :: r.1, r.2)
          | Ok false => generate sf rest
          end
      end
  end.

(** The truth value of an asynchronous generator object, which has
    neither [__bool__] nor [__len__]. *)
Definition generator_truthy (g : list Item) : bool := true.

(** Lines 214-219.  [it_messages], when given, is a generator object,
    hence truthy; [lb.files] on [None] is an [AttributeError]. *)
Definition iter_from (sf : SearchFilter) (it_messages : option (list Item))
    (lb : option DecryptedLocalBox) : res (list Item) :=
  match it_messages with
  | Some g => Ok g
  | None =>
      let min_id := last (Filter.min_id (in_filters sf)) in
      let max_id := last (Filter.max_id (in_filters sf)) in
      match lb with
      | Some box => Ok (files box min_id max_id)
      | None => Raise AttributeError
      end
  end.

(** Lines 199-399: the source is chosen, checked at line 221, and
    walked. *)
Definition search_generator (sf : SearchFilter)
    (it_messages : option (list Item)) (lb : option DecryptedLocalBox)
  : list Item * option exn :=
  match iter_from sf it_messages lb with
  | Raise e => ([], Some e)
  | Ok g =>
      if negb (generator_truthy g) then ([], Some ValueError)
      else generate sf g
  end.

(** ** Vocabulary of the properties *)

(** The inclusion and the exclusion test of a field for a file: the
    block of that field in the first and in the second round of the
    loop over the filters. *)
Definition incl_test (sf : SearchFilter) (file : BoxFile.t) (file_size : Z)
    (fd : field) : res outcome :=
  block (in_func sf) file file_size 0 (in_filters sf) fd.

Definition excl_test (sf : SearchFilter) (file : BoxFile.t) (file_size : Z)
    (fd : field) : res outcome :=
  block (in_func sf) file file_size 1 (ex_filters sf) fd.

(** Two filters carry the same criterion for a field. *)
Definition same_criterion (fd : field) (flt flt' : Filter.t) : Prop :=
  match fd with
  | Exported => Filter.exported flt = Filter.exported flt'
  | Mime => Filter.mime flt = Filter.mime flt'
  | MinTime => Filter.min_time flt = Filter.min_time flt'
  | MaxTime => Filter.max_time flt = Filter.max_time flt'
  | MinSize => Filter.min_size flt = Filter.min_size flt'
  | MaxSize => Filter.max_size flt = Filter.max_size flt'
  | MinId => Filter.min_id flt = Filter.min_id flt'
  | MaxId => Filter.max_id flt = Filter.max_id flt'
  | Id => Filter.id flt = Filter.id flt'
  | Cattrs => Filter.cattrs flt = Filter.cattrs flt'
  | FilePath => Filter.file_path flt = Filter.file_path flt'
  | FileName => Filter.file_name flt = Filter.file_name flt'
  | FileSalt => Filter.file_salt flt = Filter.file_salt flt'
  | Verbyte => Filter.verbyte flt = Filter.verbyte flt'
  end.

(** Two search filters agree on a field and on the matching mode. *)
Definition agree_on (fd : field) (sf sf' : SearchFilter) : Prop :=
  Filter.re (in_filters sf) = Filter.re (in_filters sf') /\
  same_criterion fd (in_filters sf) (in_filters sf') /\
  same_criterion fd (ex_filters sf) (ex_filters sf').

(** The range fields, the value of a file each of them bounds, and the
    filter with the bounds of one of them replaced. *)
Inductive range_field : Type :=
  | RMinTime | RMaxTime | RMinSize | RMaxSize | RMinId | RMaxId.

Definition field_of (rf : range_field) : field :=
  match rf with
  | RMinTime => MinTime | RMaxTime => MaxTime
  | RMinSize => MinSize | RMaxSize => MaxSize
  | RMinId => MinId | RMaxId => MaxId
  end.

Definition range_value (rf : range_field) (file : BoxFile.t) (file_size : Z)
  : Z :=
  match rf with
  | RMinTime | RMaxTime => BoxFile.upload_time file
  | RMinSize | RMaxSize => file_size
  | RMinId | RMaxId => BoxFile.id file
  end.

Definition set_bounds (rf : range_field) (bounds : list Z) (flt : Filter.t)
  : Filter.t :=
  let '(Filter.mk exported re mime min_time max_time min_size max_size
          min_id max_id id cattrs file_path file_name file_salt verbyte) := flt in
  match rf with
  | RMinTime =>
      Filter.mk exported re mime bounds max_time min_size max_size
        min_id max_id id cattrs file_path file_name file_salt verbyte
  | RMaxTime =>
      Filter.mk exported re mime min_time bounds min_size max_size
        min_id max_id id cattrs file_path file_name file_salt verbyte
  | RMinSize =>
      Filter.mk exported re mime min_time max_time bounds max_size
        min_id max_id id cattrs file_path file_name file_salt verbyte
  | RMaxSize =>
      Filter.mk exported re mime min_time max_time min_size bounds
        min_id max_id id cattrs file_path file_name file_salt verbyte
  | RMinId =>
      Filter.mk exported re mime min_time max_time min_size max_size
        bounds max_id id cattrs file_path file_name file_salt verbyte
  | RMaxId =>
      Filter.mk exported re mime min_time max_time min_size max_size
        min_id bounds id cattrs file_path file_name file_salt verbyte
  end.

(** The filter with its [cattrs] criteria replaced. *)
Definition set_cattrs (criteria : list (list (string * string)))
    (flt : Filter.t) : Filter.t :=
  let '(Filter.mk exported re mime min_time max_time min_size max_size
          min_id max_id id _ file_path file_name file_salt verbyte) := flt in
  Filter.mk exported re mime min_time max_time min_size max_size
    min_id max_id id criteria file_path file_name file_salt verbyte.

(** The strings of a filter that are handed to [in_func] as patterns. *)
Definition patterns (flt : Filter.t) : list string :=
  Filter.mime flt ++ Filter.file_path flt ++ Filter.file_name flt ++
  Filter.file_salt flt ++ concat (map (map snd) (Filter.cattrs flt)).

(** A well-formed search filter: in regex mode, every pattern of the
    two filters compiles. *)
Definition well_formed (sf : SearchFilter) : Prop :=
  Filter.re (in_filters sf) = true ->
  forall p, In p (patterns (in_filters sf) ++ patterns (ex_filters sf)) ->
    is_Some (re_compile p).

(** A computation that raises nothing but [re.error]. *)
Definition raises_only_re {A : Type} (r : res A) : Prop :=
  forall e, r = Raise e -> e = ReError.

(** The source elements that are box files. *)
Definition is_box_file (file : Item) : bool :=
  match probe file with
  | Some _ => true
  | None => false
  end.

(** The test of a field left [yield_result] untouched. *)
Definition test_passes (r : res outcome) : bool :=
  match r with
  | Ok Pass => true
  | _ => false
  end.

(** A source element passes: it is a box file and the round of the
    loop for it ends with [all(yield_result)]. *)
Definition passes (sf : SearchFilter) (file : Item) : bool :=
  match probe file with
  | None => false
  | Some (f, file_size) =>
      match evaluate sf f file_size with
      | Ok b => b
      | Raise _ => false
      end
  end.

End SearchGenerator.

(** ** A regex library to run the generator with

    A fragment of Python's [re]: ordinary characters, [.] and the
    postfix [*].  A [*] with nothing to repeat, or after a repeat, is
    rejected with [re.error], as Python does (nothing to repeat,
    multiple repeat).  The other metacharacters are outside the
    fragment, and a pattern that has one is not compiled. *)
Module MiniRe.
Inductive atom : Type :=
  | Any
  | Lit (c : ascii).

Definition outside (c : ascii) : bool :=
  existsb (Ascii.eqb c)
    (list_ascii_of_string "\^$+?{}[]()|").

Definition atom_of (c : ascii) : atom :=
  if Ascii.eqb c "."%char then Any else Lit c.

Fixpoint parse (p : string) : option (list (atom * bool)) :=
  match p with
  | EmptyString => Some []
  | String c p' =>
      if Ascii.eqb c "*"%char then None
      else if outside c then None
      else
        match p' with
        | String "*"%char rest => cons (atom_of c, true) <$> parse rest
        | _ => cons (atom_of c, false) <$> parse p'
        end
  end.

Definition accepts (a : atom) (c : ascii) : bool :=
  match a with
  | Any => negb (Ascii.eqb c "010"%char)
  | Lit c' => Ascii.eqb c c'
  end.

Fixpoint match_here (r : list (atom * bool)) (s : string) : bool :=
  match r with
  | [] => true
  | (a, false) :: r' =>
      match s with
      | EmptyString => false
      | String c s' => accepts a c && match_here r' s'
      end
  | (a, true) :: r' =>
      (fix star (s : string) : bool :=
         match_here r' s ||
         match s with
         | EmptyString => false
         | String c s' => accepts a c && star s'
         end) s
  end.

Fixpoint scan (r : list (atom * bool)) (s : string) : bool :=
  match_here r s ||
  match s with
  | EmptyString => false
  | String _ s' => scan r s'
  end.

Definition lib : RegexLib :=
  {| regex := list (atom * bool); re_compile := parse; re_scan := scan |}.
End MiniRe.

(** ** Sample data *)

Definition sample_file (id size : Z) (mime : string) (upload_time : Z)
    (exported : bool) (cattrs : option (gmap string string)) : BoxFile.t :=
  BoxFile.mk id size mime upload_time exported "/home/user" "photo.jpg"
    "salt" 1 cattrs.

Definition no_filters : SearchFilter :=
  {| in_filters := Filter.empty; ex_filters := Filter.empty |}.

(** [include(min_time=1000)], and the same with [include(mime=...)] and
    [exclude(exported=True)] added. *)
Definition since_1000 : SearchFilter :=
  {| in_filters := set_bounds RMinTime [1000] Filter.empty;
     ex_filters := Filter.empty |}.

Definition since_1000_more : SearchFilter :=
  {| in_filters :=
       Filter.mk None false ["image/png"] [1000] [] [] [] [] [] [] [] [] [] [] [];
     ex_filters :=
       Filter.mk (Some true) false [] [] [] [] [] [] [] [] [] [] [] [] [] |}.

Definition early_file : BoxFile.t :=
  sample_file 2 100 "image/png" 999 false None.

Definition later_file : BoxFile.t :=
  sample_file 1 100 "image/png" 1500 false None.

Definition latest_file : BoxFile.t :=
  sample_file 3 100 "text/plain" 2000 true None.

Definition three_files : list Item :=
  [RemoteBoxFile later_file; RemoteBoxFile early_file; LocalBoxFile latest_file].

(** [include(exported=False)] and [exclude(exported=False)]. *)
Definition exported_false : Filter.t :=
  Filter.mk (Some false) false [] [] [] [] [] [] [] [] [] [] [] [] [].

(** Two mappings of custom attributes asked for, the second of which
    the file has. *)
Definition two_mappings : SearchFilter :=
  {| in_filters := set_cattrs [[("a", "x")]; [("b", "y")]] Filter.empty;
     ex_filters := Filter.empty |}.

Definition second_mapping : SearchFilter :=
  {| in_filters := set_cattrs [[("b", "y")]] Filter.empty;
     ex_filters := Filter.empty |}.

Definition file_with_b : BoxFile.t :=
  sample_file 4 100 "image/png" 1500 false (Some {[ "b" := "y" ]}).

(** Regex mode with the malformed pattern [*] in the exclude filter,
    for the custom attribute [k]. *)
Definition star_pattern : SearchFilter :=
  {| in_filters :=
       Filter.mk None true [] [] [] [] [] [] [] [] [] [] [] [] [];
     ex_filters := set_cattrs [[("k", "*")]] Filter.empty |}.

Definition file_without_k : BoxFile.t :=
  sample_file 5 100 "image/png" 1500 false (Some ∅).

Definition file_with_k : BoxFile.t :=
  sample_file 6 100 "image/png" 1500 false (Some {[ "k" := "v" ]}).


(** ** More of the generator *)

(** The forms the [exported] entry of a filter can have, the class
    [SearchFilter] not being part of this file: unset, a bare truth
    value, or a list of them. *)
Inductive exported_entry : Type :=
  | EntryNone
  | EntryBool (b : bool)
  | EntryList (l : list bool).

(** The truth value of an entry, which is both the test of line 239
    and [bool(filter['exported'])] of lines 240 and 245: an empty list
    is falsy, any other list truthy. *)
Definition entry_truthy (entry : exported_entry) : bool :=
  match entry with
  | EntryNone => false
  | EntryBool b => b
  | EntryList [] => false
  | EntryList (_ :: _) => true
  end.

Definition entry_of (o : option bool) : exported_entry :=
  match o with
  | None => EntryNone
  | Some b => EntryBool b
  end.

(** Lines 239-248 on any form of the entry. *)
Definition exported_block_on (indx : nat) (entry : exported_entry)
    (file_exported : bool) : outcome :=
  if entry_truthy entry then
    if negb (eqb file_exported (entry_truthy entry)) then
      if (indx =? 0)%nat then FailBreak else Pass
    else if eqb file_exported (entry_truthy entry) then
      if (indx =? 1)%nat then FailBreak else Pass
    else Pass
  else Pass.

(** A filter whose lists are all empty. *)
Definition blank (exported : option bool) (re : bool) : Filter.t :=
  Filter.mk exported re [] [] [] [] [] [] [] [] [] [] [] [] [].

(** The bounds a filter has for a range field, and the side they
    bound. *)
Definition get_bounds (rf : range_field) (flt : Filter.t) : list Z :=
  match rf with
  | RMinTime => Filter.min_time flt
  | RMaxTime => Filter.max_time flt
  | RMinSize => Filter.min_size flt
  | RMaxSize => Filter.max_size flt
  | RMinId => Filter.min_id flt
  | RMaxId => Filter.max_id flt
  end.

Definition is_lower (rf : range_field) : bool :=
  match rf with
  | RMinTime | RMinSize | RMinId => true
  | RMaxTime | RMaxSize | RMaxId => false
  end.

(** What a file that got through a range block satisfies: within the
    bound in the include round, strictly beyond it in the exclude
    round. *)
Definition respects (rf : range_field) (indx : nat) (value b : Z) : Prop :=
  match is_lower rf, (indx =? 0)%nat with
  | true, true => b <= value
  | true, false => value < b
  | false, true => value <= b
  | false, false => b < value
  end.

(** The three quantities that have a lower and an upper bound. *)
Inductive quantity : Type := Time | Size | Ident.

Definition lower (q : quantity) : range_field :=
  match q with Time => RMinTime | Size => RMinSize | Ident => RMinId end.

Definition upper (q : quantity) : range_field :=
  match q with Time => RMaxTime | Size => RMaxSize | Ident => RMaxId end.

(** The filter with its [re] entry replaced. *)
Definition set_re (re : bool) (flt : Filter.t) : Filter.t :=
  let '(Filter.mk exported _ mime min_time max_time min_size max_size
          min_id max_id id cattrs file_path file_name file_salt verbyte) := flt in
  Filter.mk exported re mime min_time max_time min_size max_size
    min_id max_id id cattrs file_path file_name file_salt verbyte.


Section Pulls.
Context `{RL : RegexLib}.

(** One [__anext__] of the generator, lines 224-399: the loop runs
    until a file is yielded, and the generator is left suspended on
    the rest of the source; [None] when the source runs out. *)
Fixpoint next_file (sf : SearchFilter) (iter_from : list Item)
  : res (option (Item * list Item)) :=
  match iter_from with
  | [] => Ok None
  | file :: rest =>
      match probe file with
      | None => next_file sf rest
      | Some (f, file_size) =>
          match evaluate sf f file_size with
          | Raise e => Raise e
          | Ok true => Ok (Some (file, rest))
          | Ok false => next_file sf rest
          end
      end
  end.

End Pulls.

(** ** The Telegram client (lines 35-162) *)

Module Telegram.

(** The [session] argument: a string, or a [StringSession] object. *)
Inductive session_arg : Type :=
  | SessionString (s : string)
  | SessionObject.

(** Python truth values: [None] and the empty string are falsy, an
    object is truthy. *)
Definition truthy_string (o : option string) : bool :=
  match o with
  | Some s => negb (String.eqb s "")
  | None => false
  end.

Definition truthy_session (o : option session_arg) : bool :=
  match o with
  | Some (SessionString s) => negb (String.eqb s "")
  | Some SessionObject => true
  | None => false
  end.

(** The attributes set by [__init__], lines 105-107, and the session
    handed to Telethon at line 102. *)
Record TelegramClient : Type := {
  session : option session_arg;
  _api_id : Z;
  _api_hash : string;
  _phone_number : option string
}.

(** What Telethon's own constructor, called at lines 101-104 with
    [StringSession(session)], can raise. *)
Inductive telethon_error : Type :=
  | TelethonValueError
  | TelethonTypeError
  | TelethonError.

(** How a constructor ends: with the object, with the [ValueError] of
    line 98, or with what Telethon's constructor raised. *)
Inductive made (A : Type) : Type :=
  | Made (a : A)
  | Refused
  | Raised (e : telethon_error).

Arguments Made {A} a.
Arguments Refused {A}.
Arguments Raised {A} e.

(** Lines 71-107.  [super_init] stands for Telethon's constructor:
    what it raises, if anything, for the session, the id and the hash
    it is given. *)
Definition init
    (super_init : option session_arg -> Z -> string -> option telethon_error)
    (api_id : Z) (api_hash : string)
    (phone_number : option string) (session : option session_arg)
  : made TelegramClient :=
  if negb (truthy_session session) && negb (truthy_string phone_number) then
    Refused
  else
    match super_init session api_id api_hash with
    | Some e => Raised e
    | None =>
        Made {| session := session; _api_id := api_id; _api_hash := api_hash;
                _phone_number := phone_number |}
    end.

(** The requests a client sends through Telethon. *)
Inductive request : Type :=
  | SendCodeRequest (phone : option string) (force_sms : bool)
  | ResendCodeRequest (phone : option string) (phone_code_hash : string)
  | IsUserAuthorized
  | SignIn (phone : option string) (code : option string)
  | SignInPassword (password : option string).

(** What a sign-in request can raise. *)
Inductive sign_in_error : Type :=
  | SessionPasswordNeededError
  | OtherError.

(** Lines 109-119. *)
Definition send_code (tc : TelegramClient) (force_sms : bool) : request :=
  SendCodeRequest (_phone_number tc) force_sms.

(** Lines 142-162. *)
Definition resend_code (tc : TelegramClient) (phone_code_hash : string)
  : request :=
  ResendCodeRequest (_phone_number tc) phone_code_hash.

(** Lines 120-140, against a server that answers
    [is_user_authorized] with [authorized] and a sign-in request with
    [sign_in]: the requests sent, in order, and the exception that
    leaves [log_in], if one does. *)
Definition log_in (tc : TelegramClient) (password code : option string)
    (authorized : bool) (sign_in : request -> option sign_in_error)
  : list request * option sign_in_error :=
  if negb authorized then
    match sign_in (SignIn (_phone_number tc) code) with
    | None => ([IsUserAuthorized; SignIn (_phone_number tc) code], None)
    | Some SessionPasswordNeededError =>
        ([IsUserAuthorized; SignIn (_phone_number tc) code;
          SignInPassword password],
         sign_in (SignInPassword password))
    | Some e => ([IsUserAuthorized; SignIn (_phone_number tc) code], Some e)
    end
  else ([IsUserAuthorized], None).

End Telegram.

(** ** The virtual file (lines 401-458) *)

Module VirtualFile.

(** An attribute of the document that may be missing ([hasattr]) and
    whose value may be [None]. *)
Inductive attribute : Type :=
  | NoAttribute
  | Attribute (value : option (list Z)).


Record Document : Type := {
  sizes : attribute;
  thumbs : attribute
}.

(** What Telethon's [File(document)] tells, lines 422-429. *)
Record File : Type := {
  file_name : option string;
  file_size : Z;
  mime_type : string;
  file_duration : option Z
}.

(** What awaiting the coroutine of [connect()] gives: [None], or an
    object that has the method [download_media]. *)
Inductive connect_result : Type :=
  | ConnectedNone
  | ConnectedClient.

(** The values of [self.tc]: the coroutine of [client.connect()]
    (line 420), and what awaiting it gave (lines 434 and 451). *)
Inductive tc_value : Type :=
  | Coroutine (client : Telegram.TelegramClient)
  | Awaited (r : connect_result).

(** The attributes of the object.  [self.tc] is kept as the client
    whose [connect()] coroutine it is at first, [client], and what
    awaiting that coroutine gives, [connect_gives]: see [self_tc].
    [downloader] is [None] until [read] makes the generator of
    [download_file]. *)
Record t : Type := {
  document : Document;
  client : Telegram.TelegramClient;
  connect_gives : connect_result;
  _client_initialized : bool;
  downloader : option unit;
  name : option string;
  size : Z;
  mime : string;
  duration : Z
}.

(** [self.tc]: lines 434-435 and 451-452 rebind it and set the flag
    together. *)
Definition self_tc (vf : t) : tc_value :=
  if _client_initialized vf then Awaited (connect_gives vf)
  else Coroutine (client vf).

(** Lines 407-429.  The client is made from the session alone, and
    [self.tc] is left the coroutine of its [connect()], which will
    give [gives] when awaited. *)
Definition init
    (super_init : option Telegram.session_arg -> Z -> string ->
                  option Telegram.telethon_error)
    (gives : connect_result) (doc : Document) (file : File)
    (session : option Telegram.session_arg) (api_id : Z) (api_hash : string)
  : Telegram.made t :=
  match Telegram.init super_init api_id api_hash None session with
  | Telegram.Refused => Telegram.Refused
  | Telegram.Raised e => Telegram.Raised e
  | Telegram.Made tc =>
      Telegram.Made
        {| document := doc;
           client := tc;
           connect_gives := gives;
           _client_initialized := false;
           downloader := None;
           name := file_name file;
           size := file_size file;
           mime := mime_type file;
           duration :=
             match file_duration file with
             | Some d => if d =? 0 then 0 else d
             | None => 0
             end |}
  end.













End VirtualFile.

(** ** More sample data *)

Definition mixed_source : list Item :=
  [RemoteBoxFile later_file; Foreign; LocalBoxFile latest_file].

(** [include(min_id=10, max_id=5)]. *)
Definition ids_10_to_5 : SearchFilter :=
  {| in_filters := set_bounds RMinId [10] (set_bounds RMaxId [5] Filter.empty);
     ex_filters := Filter.empty |}.

(** [include(min_time=1000, file_name='*', re=True)]: the malformed
    pattern comes after the bound in the loop body. *)
Definition regex_since_1000_star : SearchFilter :=
  {| in_filters :=
       Filter.mk None true [] [1000] [] [] [] [] [] [] [] [] ["*"] [] [];
     ex_filters := Filter.empty |}.

(** A filter with the malformed pattern [*] for [mime]. *)
Definition star_mime : Filter.t :=
  Filter.mk None false ["*"] [] [] [] [] [] [] [] [] [] [] [] [].

Definition k_is_star : Filter.t := set_cattrs [[("k", "*")]] Filter.empty.


Definition always_raises (p s : string) : res bool := Raise ReError.

Definition substring (p s : string) : res bool := Ok (contains p s).

Definition jpeg_test (mime : string) : res bool :=
  substring mime "image/jpeg".



(** * Properties *)

Section Properties.
Context `{RL : RegexLib}.

(** ** The loop body and the loop over the filters *)

Lemma bind_Ok {A B : Type} (a : A) (k : A -> res B) : (Ok a ≫= k) = k a.
Proof. reflexivity. Qed.

Lemma bind_Raise {A B : Type} (e : exn) (k : A -> res B) :
  (Raise e ≫= k) = Raise e.
Proof. reflexivity. Qed.

Lemma bind_inv_Ok {A B : Type} (m : res A) (k : A -> res B) (b : B) :
  (m ≫= k) = Ok b -> exists a, m = Ok a /\ k a = Ok b.
Proof. destruct m as [a|e]; [eauto | discriminate]. Qed.

Lemma bind_inv_Raise {A B : Type} (m : res A) (k : A -> res B) (e : exn) :
  (m ≫= k) = Raise e -> m = Raise e \/ exists a, m = Ok a /\ k a = Raise e.
Proof. destruct m as [a|e']; [eauto | intros [= ->]; auto]. Qed.

Lemma all_fields (fd : field) : In fd fields.
Proof. destruct fd; simpl; tauto. Qed.

Lemma run_body_all_pass (blocks : list (res outcome)) (indx : nat)
    (yr : list bool) :
  Forall (fun b => b = Ok Pass) blocks -> run_body blocks indx yr = Ok (yr, Next).
Proof.
  induction 1 as [|b blocks -> _ IH]; simpl; [reflexivity | exact IH].
Qed.

Lemma run_body_shape (blocks : list (res outcome)) (indx : nat)
    (yr yr' : list bool) (c : ctl) :
  run_body blocks indx yr = Ok (yr', c) ->
  (yr' = yr /\ c = Next /\ Forall (fun b => b = Ok Pass) blocks) \/
  (yr' = <[indx := false]> yr /\ ~ Forall (fun b => b = Ok Pass) blocks).
Proof.
  revert yr. induction blocks as [|b blocks IH]; simpl; intros yr Hrun.
  - left. injection Hrun as <- <-. auto.
  - destruct b as [[| |]|e]; simpl in Hrun; try discriminate.
    + destruct (IH _ Hrun) as [(-> & -> & HF)|(-> & HF)].
      * left. auto.
      * right. split; [reflexivity|]. intros HF'. apply HF.
        eapply Forall_cons_1, HF'.
    + right. split.
      * destruct (IH _ Hrun) as [(-> & _)|(-> & _)];
          [reflexivity | apply list_insert_insert_eq].
      * intros HF. apply Forall_cons_1 in HF as [[=] _].
    + right. injection Hrun as <- <-. split; [reflexivity|].
      intros HF. apply Forall_cons_1 in HF as [[=] _].
Qed.

Lemma run_body_never_raises (blocks : list (res outcome)) (indx : nat)
    (yr : list bool) :
  Forall (fun b => exists o, b = Ok o) blocks ->
  exists r, run_body blocks indx yr = Ok r.
Proof.
  intros HF. revert yr.
  induction HF as [|b blocks [o ->] _ IH]; simpl; intros yr; [eauto|].
  destruct o; simpl; eauto.
Qed.

Lemma forall_fields (P : field -> Prop) :
  Forall (fun b => b) (map P fields) <-> forall fd, P fd.
Proof.
  split.
  - intros HF fd. rewrite List.Forall_map, List.Forall_forall in HF.
    apply HF, all_fields.
  - intros HP. rewrite List.Forall_map, List.Forall_forall. auto.
Qed.

Lemma blocks_all_pass (f : field -> res outcome) :
  Forall (fun b => b = Ok Pass) (map f fields) <-> forall fd, f fd = Ok Pass.
Proof.
  rewrite List.Forall_map, List.Forall_forall. split.
  - intros HF fd. apply HF, all_fields.
  - auto.
Qed.

Lemma yield_result_eq (sf : SearchFilter) (file : BoxFile.t) (file_size : Z) :
  yield_result sf file file_size =
  (r0 ← run_body (map (block (in_func sf) file file_size 0 (in_filters sf)) fields)
          0 [true; true];
   match r0.2 with
   | Break => Ok r0.1
   | Next =>
       r1 ← run_body (map (block (in_func sf) file file_size 1 (ex_filters sf)) fields)
              1 r0.1;
       match r1.2 with
       | Break => Ok r1.1
       | Next => Ok r1.1
       end
   end).
Proof. reflexivity. Qed.

(** A file is yielded exactly when every block of both rounds leaves
    [yield_result] untouched. *)
Lemma evaluate_true_iff (sf : SearchFilter) (file : BoxFile.t) (file_size : Z) :
  evaluate sf file file_size = Ok true <->
  forall fd, incl_test sf file file_size fd = Ok Pass /\
             excl_test sf file file_size fd = Ok Pass.
Proof.
  unfold evaluate, incl_test, excl_test. rewrite yield_result_eq.
  split.
  - intros Hev.
    destruct (run_body _ 0 _) as [[yr0 c0]|e0] eqn:E0; [|discriminate].
    rewrite bind_Ok in Hev. cbn [fst snd] in Hev.
    apply run_body_shape in E0 as [(-> & -> & HF0)|(-> & _)].
    + destruct (run_body _ 1 _) as [[yr1 c1]|e1] eqn:E1; [|discriminate].
      rewrite !bind_Ok in Hev. cbn [fst snd] in Hev.
      apply run_body_shape in E1 as [(-> & -> & HF1)|(-> & _)].
      * intros fd. split;
          [eapply blocks_all_pass in HF0|eapply blocks_all_pass in HF1]; eauto.
      * destruct c1; discriminate.
    + destruct c0; [|discriminate].
      destruct (run_body _ 1 _) as [[yr1 c1]|e1] eqn:E1; [|discriminate].
      rewrite !bind_Ok in Hev. cbn [fst snd] in Hev.
      apply run_body_shape in E1 as [(-> & -> & _)|(-> & _)];
        [|destruct c1]; discriminate.
  - intros Hall.
    rewrite run_body_all_pass by (apply blocks_all_pass; intros; apply Hall).
    rewrite bind_Ok. cbn [fst snd].
    rewrite run_body_all_pass by (apply blocks_all_pass; intros; apply Hall).
    reflexivity.
Qed.

(** ** No exception on well-formed filters *)

Lemma for_break_total {A : Type} (test : A -> res bool) (l : list A) :
  (forall x, In x l -> exists b, test x = Ok b) ->
  exists b, for_break test l = Ok b.
Proof.
  induction l as [|x l IH]; simpl; intros Htest; [eauto|].
  destruct (Htest x) as [b ->]; [auto|]. rewrite bind_Ok.
  destruct b; eauto.
Qed.

Lemma set_block_total {A : Type} (indx : nat) (test : A -> res bool)
    (criteria : list A) :
  (forall x, In x criteria -> exists b, test x = Ok b) ->
  exists o, set_block indx test criteria = Ok o.
Proof.
  intros Htest. unfold set_block.
  destruct (for_break_total test criteria Htest) as [hit ->].
  rewrite bind_Ok. destruct hit; [eauto|]. destruct criteria; eauto.
Qed.

Lemma cattr_test_total (in_func : string -> string -> res bool)
    (fc : gmap string string) (kv : string * string) :
  (forall s, exists b, in_func kv.2 s = Ok b) ->
  exists b, cattr_test in_func fc kv = Ok b.
Proof. intros Hin. unfold cattr_test. destruct (fc !! kv.1); eauto. Qed.

Lemma cattrs_loop_total (in_func : string -> string -> res bool) (indx : nat)
    (fc : gmap string string) (criteria rest : list (list (string * string)))
    (unset : bool) :
  (forall p s, In p (concat (map (map snd) rest)) ->
     exists b, in_func p s = Ok b) ->
  exists b, cattrs_loop in_func indx fc criteria rest unset = Ok b.
Proof.
  revert unset. induction rest as [|cattr rest IH]; simpl; intros unset Hin;
    [eauto|].
  destruct (for_break_total (cattr_test in_func fc) cattr) as [hit ->].
  { intros kv Hkv. apply cattr_test_total. intros s. apply Hin.
    apply in_or_app. left. apply in_map. exact Hkv. }
  assert (Hrest : forall p s, In p (concat (map (map snd) rest)) ->
            exists b, in_func p s = Ok b).
  { intros p s Hp. apply Hin, in_or_app. auto. }
  rewrite bind_Ok. destruct hit; [auto|].
  destruct criteria; [auto|]. destruct (indx =? 0)%nat; eauto.
Qed.

Lemma block_total (in_func : string -> string -> res bool) (file : BoxFile.t)
    (file_size : Z) (indx : nat) (flt : Filter.t) (fd : field) :
  (forall p s, In p (patterns flt) -> exists b, in_func p s = Ok b) ->
  exists o, block in_func file file_size indx flt fd = Ok o.
Proof.
  unfold patterns. intros Hin. destruct fd; simpl; eauto;
    try (apply set_block_total; intros p Hp;
         first [ solve [unfold eq_test; eauto]
               | apply Hin; rewrite !in_app_iff; auto 10 ]).
  unfold cattrs_block. destruct (BoxFile.cattrs file) as [fc|]; [|eauto].
  destruct (cattrs_loop_total in_func indx fc (Filter.cattrs flt)
              (Filter.cattrs flt) true) as [b ->]; [|rewrite bind_Ok; eauto].
  intros p s Hp. apply Hin. rewrite !in_app_iff. auto 10.
Qed.

Lemma in_func_total (sf : SearchFilter) (p s : string) :
  well_formed sf ->
  In p (patterns (in_filters sf) ++ patterns (ex_filters sf)) ->
  exists b, in_func sf p s = Ok b.
Proof.
  unfold well_formed, in_func, re_search. intros Hwf Hp.
  destruct (Filter.re (in_filters sf)); [|eauto].
  destruct (Hwf eq_refl p Hp) as [r ->]. eauto.
Qed.

Lemma evaluate_total (sf : SearchFilter) (file : BoxFile.t) (file_size : Z) :
  well_formed sf -> exists b, evaluate sf file file_size = Ok b.
Proof.
  intros Hwf. unfold evaluate. rewrite yield_result_eq.
  destruct (run_body_never_raises
              (map (block (in_func sf) file file_size 0 (in_filters sf)) fields)
              0 [true; true]) as [[yr0 c0] ->].
  { rewrite List.Forall_map, List.Forall_forall. intros fd _.
    apply block_total. intros p s Hp. apply in_func_total; [done|].
    apply in_or_app. by left. }
  rewrite bind_Ok. cbn [fst snd]. destruct c0; [|eauto].
  destruct (run_body_never_raises
              (map (block (in_func sf) file file_size 1 (ex_filters sf)) fields)
              1 yr0) as [[yr1 c1] ->].
  { rewrite List.Forall_map, List.Forall_forall. intros fd _.
    apply block_total. intros p s Hp. apply in_func_total; [done|].
    apply in_or_app. by right. }
  rewrite bind_Ok. cbn [fst snd]. destruct c1; eauto.
Qed.

(** ** Independence of the fields *)

Lemma test_passes_true (r : res outcome) : test_passes r = true <-> r = Ok Pass.
Proof. destruct r as [[| |]|e]; simpl; split; congruence. Qed.

Lemma block_same_criterion (in_func : string -> string -> res bool)
    (file : BoxFile.t) (file_size : Z) (indx : nat) (flt flt' : Filter.t)
    (fd : field) :
  same_criterion fd flt flt' ->
  block in_func file file_size indx flt fd =
  block in_func file file_size indx flt' fd.
Proof.
  destruct fd; simpl; intros Hc;
    unfold exported_block, cattrs_block; rewrite Hc; reflexivity.
Qed.

Lemma in_func_same_mode (sf sf' : SearchFilter) :
  Filter.re (in_filters sf) = Filter.re (in_filters sf') ->
  in_func sf = in_func sf'.
Proof. unfold in_func. intros ->. reflexivity. Qed.

Lemma tests_agree (sf sf' : SearchFilter) (file : BoxFile.t) (file_size : Z)
    (fd : field) :
  agree_on fd sf sf' ->
  incl_test sf' file file_size fd = incl_test sf file file_size fd /\
  excl_test sf' file file_size fd = excl_test sf file file_size fd.
Proof.
  intros (Hre & Hin & Hex). unfold incl_test, excl_test.
  rewrite (in_func_same_mode sf sf' Hre).
  split; symmetry; apply block_same_criterion; assumption.
Qed.

Lemma evaluate_forallb (sf : SearchFilter) (file : BoxFile.t) (file_size : Z) :
  well_formed sf ->
  evaluate sf file file_size =
  Ok (forallb (fun fd => test_passes (incl_test sf file file_size fd) &&
                         test_passes (excl_test sf file file_size fd)) fields).
Proof.
  intros Hwf. destruct (evaluate_total sf file file_size Hwf) as [b Hb].
  rewrite Hb. f_equal. apply eq_true_iff_eq.
  rewrite forallb_forall. split.
  - intros ->. intros fd _. apply evaluate_true_iff with (fd := fd) in Hb.
    apply andb_true_intro. rewrite !test_passes_true. exact Hb.
  - intros Hall. assert (Hev : evaluate sf file file_size = Ok true).
    { apply evaluate_true_iff. intros fd.
      specialize (Hall fd (all_fields fd)).
      apply andb_prop in Hall. rewrite !test_passes_true in Hall. exact Hall. }
    congruence.
Qed.

(** C1.  The decision for a file is the conjunction of the inclusion
    and exclusion tests of the fields: the file is yielded iff every
    field's two tests pass, and on a well-formed filter the decision
    is the boolean conjunction over the fields.  The tests of a field
    depend on the criteria of that field alone (and the matching
    mode), so a file that fails a field still fails when the criteria
    of any other fields are changed. *)
Theorem evaluate_conjunction_of_field_tests (sf : SearchFilter)
    (file : BoxFile.t) (file_size : Z) :
  (evaluate sf file file_size = Ok true <->
   forall fd, incl_test sf file file_size fd = Ok Pass /\
              excl_test sf file file_size fd = Ok Pass) /\
  (well_formed sf ->
   evaluate sf file file_size =
   Ok (forallb (fun fd => test_passes (incl_test sf file file_size fd) &&
                          test_passes (excl_test sf file file_size fd)) fields)) /\
  (forall sf' fd, agree_on fd sf sf' ->
     incl_test sf' file file_size fd = incl_test sf file file_size fd /\
     excl_test sf' file file_size fd = excl_test sf file file_size fd) /\
  (forall sf' fd, agree_on fd sf sf' ->
     test_passes (incl_test sf file file_size fd) &&
     test_passes (excl_test sf file file_size fd) = false ->
     evaluate sf' file file_size <> Ok true /\
     (well_formed sf' -> evaluate sf' file file_size = Ok false)).
Proof.
  split; [apply evaluate_true_iff|].
  split; [apply evaluate_forallb|].
  split; [intros sf' fd; apply tests_agree|].
  intros sf' fd Hagree Hfail.
  destruct (tests_agree sf sf' file file_size fd Hagree) as [Hin Hex].
  rewrite <- Hin, <- Hex in Hfail.
  assert (Hne : evaluate sf' file file_size <> Ok true).
  { intros Hev. apply evaluate_true_iff with (fd := fd) in Hev as [Hi He].
    rewrite Hi, He in Hfail. discriminate. }
  split; [exact Hne|]. intros Hwf.
  destruct (evaluate_total sf' file file_size Hwf) as [[|] Hb]; congruence.
Qed.

Lemma evaluate_ext (sf sf' : SearchFilter) (file : BoxFile.t) (file_size : Z) :
  (forall fd, incl_test sf file file_size fd = incl_test sf' file file_size fd) ->
  (forall fd, excl_test sf file file_size fd = excl_test sf' file file_size fd) ->
  evaluate sf file file_size = evaluate sf' file file_size.
Proof.
  unfold incl_test, excl_test, evaluate. intros Hin Hex.
  rewrite !yield_result_eq.
  rewrite (List.map_ext _ _ Hin), (List.map_ext _ _ Hex). reflexivity.
Qed.

(** ** The [exported] entry *)

Lemma exported_block_entry (indx : nat) (flt : Filter.t) (file : BoxFile.t) :
  exported_block indx flt file =
  exported_block_on indx (entry_of (Filter.exported flt))
    (BoxFile.exported file).
Proof.
  unfold exported_block, exported_block_on.
  destruct (Filter.exported flt) as [[|]|]; reflexivity.
Qed.

Lemma exported_block_truth_value (indx : nat) (entry : exported_entry)
    (file_exported : bool) :
  exported_block_on indx entry file_exported =
  exported_block_on indx (EntryBool (entry_truthy entry)) file_exported.
Proof. reflexivity. Qed.

(** ** Range fields *)

Lemma re_set_bounds (rf : range_field) (bounds : list Z) (flt : Filter.t) :
  Filter.re (set_bounds rf bounds flt) = Filter.re flt.
Proof. destruct flt, rf; reflexivity. Qed.

Lemma block_set_bounds_last (in_func : string -> string -> res bool)
    (file : BoxFile.t) (file_size : Z) (indx : nat) (rf : range_field)
    (pre : list Z) (b : Z) (flt : Filter.t) (fd : field) :
  block in_func file file_size indx (set_bounds rf (pre ++ [b]) flt) fd =
  block in_func file file_size indx (set_bounds rf [b] flt) fd.
Proof.
  destruct flt, rf, fd; simpl; try reflexivity;
    unfold min_block, max_block; rewrite last_snoc; reflexivity.
Qed.

Lemma in_func_set_bounds (rf : range_field) (bounds bounds' : list Z)
    (fi fe fe' : Filter.t) :
  in_func {| in_filters := set_bounds rf bounds fi; ex_filters := fe |} =
  in_func {| in_filters := set_bounds rf bounds' fi; ex_filters := fe' |}.
Proof. unfold in_func. simpl. rewrite !re_set_bounds. reflexivity. Qed.

(** C4.  Of the bounds of a range field only the last one counts: the
    decision for a file with the bounds [pre ++ [b]] is the decision
    with the single bound [b], in the include and in the exclude
    filter, and the id window handed to [lb.files] is made of the last
    [min_id] and the last [max_id] of the include filter.  With
    [min_id = [5; 10]] a file of id 7 is not yielded. *)
Theorem last_bound_is_effective (rf : range_field) (pre : list Z) (b : Z)
    (fi fe : Filter.t) (file : BoxFile.t) (file_size : Z)
    (box : DecryptedLocalBox) :
  evaluate {| in_filters := set_bounds rf (pre ++ [b]) fi; ex_filters := fe |}
    file file_size =
  evaluate {| in_filters := set_bounds rf [b] fi; ex_filters := fe |}
    file file_size /\
  evaluate {| in_filters := fi; ex_filters := set_bounds rf (pre ++ [b]) fe |}
    file file_size =
  evaluate {| in_filters := fi; ex_filters := set_bounds rf [b] fe |}
    file file_size /\
  iter_from {| in_filters := set_bounds RMinId (pre ++ [b]) fi; ex_filters := fe |}
    None (Some box) = Ok (files box (Some b) (last (Filter.max_id fi))) /\
  iter_from {| in_filters := set_bounds RMaxId (pre ++ [b]) fi; ex_filters := fe |}
    None (Some box) = Ok (files box (last (Filter.min_id fi)) (Some b)) /\
  evaluate {| in_filters := set_bounds RMinId [5; 10] Filter.empty;
              ex_filters := Filter.empty |}
    (sample_file 7 file_size "image/png" 0 false None) file_size = Ok false.
Proof.
  split; [|split; [|split; [|split]]].
  - apply evaluate_ext; intros fd; unfold incl_test, excl_test; simpl;
      rewrite (in_func_set_bounds rf (pre ++ [b]) [b] fi fe fe);
      [apply block_set_bounds_last | reflexivity].
  - apply evaluate_ext; intros fd; unfold incl_test, excl_test; simpl;
      [reflexivity | apply block_set_bounds_last].
  - destruct fi. unfold iter_from. simpl. rewrite last_snoc. reflexivity.
  - destruct fi. unfold iter_from. simpl. rewrite last_snoc. reflexivity.
  - vm_compute. reflexivity.
Qed.

Lemma empty_filter_passes (in_func : string -> string -> res bool)
    (file : BoxFile.t) (file_size : Z) (indx : nat) (fd : field) :
  block in_func file file_size indx Filter.empty fd = Ok Pass.
Proof. destruct fd; simpl; try reflexivity. unfold cattrs_block. simpl.
  destruct (BoxFile.cattrs file); reflexivity. Qed.

Lemma min_block_at_bound (value : Z) (pre : list Z) :
  min_block 0 value (pre ++ [value]) = Pass.
Proof.
  unfold min_block. rewrite last_snoc, Z.ltb_irrefl. simpl.
  destruct (value >=? value); reflexivity.
Qed.

Lemma max_block_at_bound (value : Z) (pre : list Z) :
  max_block 0 value (pre ++ [value]) = Pass.
Proof.
  unfold max_block. rewrite last_snoc, Z.gtb_ltb, Z.ltb_irrefl. simpl.
  destruct (value <=? value); reflexivity.
Qed.

(** C5.  The bounds of the range fields are inclusive: a file whose
    value equals the effective bound of a range field passes the
    inclusion test of that field, and is yielded when nothing else is
    asked. *)
Theorem range_bounds_inclusive (rf : range_field) (pre : list Z)
    (sf : SearchFilter) (fi : Filter.t) (file : BoxFile.t) (file_size : Z) :
  block (in_func sf) file file_size 0
    (set_bounds rf (pre ++ [range_value rf file file_size]) fi)
    (field_of rf) = Ok Pass /\
  evaluate
    {| in_filters :=
         set_bounds rf (pre ++ [range_value rf file file_size]) Filter.empty;
       ex_filters := Filter.empty |} file file_size = Ok true.
Proof.
  assert (Hfd : forall in_func fi',
    block in_func file file_size 0
      (set_bounds rf (pre ++ [range_value rf file file_size]) fi')
      (field_of rf) = Ok Pass).
  { intros in_func fi'. destruct fi', rf; simpl;
      rewrite ?min_block_at_bound, ?max_block_at_bound; reflexivity. }
  split; [apply Hfd|].
  apply evaluate_true_iff. intros fd. unfold incl_test, excl_test.
  split; [|apply empty_filter_passes]. cbn [in_filters].
  destruct rf, fd; try apply (Hfd _ Filter.empty); simpl; try reflexivity;
    unfold cattrs_block; simpl; destruct (BoxFile.cattrs file); reflexivity.
Qed.

(** ** Files without custom attributes *)

Lemma re_set_cattrs (criteria : list (list (string * string))) (flt : Filter.t) :
  Filter.re (set_cattrs criteria flt) = Filter.re flt.
Proof. destruct flt; reflexivity. Qed.

Lemma block_set_cattrs (in_func : string -> string -> res bool)
    (file : BoxFile.t) (file_size : Z) (indx : nat)
    (criteria : list (list (string * string))) (flt : Filter.t) (fd : field) :
  BoxFile.cattrs file = None ->
  block in_func file file_size indx (set_cattrs criteria flt) fd =
  block in_func file file_size indx flt fd.
Proof.
  intros Hnone. destruct flt, fd; simpl; try reflexivity.
  unfold cattrs_block. rewrite Hnone. reflexivity.
Qed.

(** C9.  For a file without the [_cattrs] attribute the block of the
    custom attributes does nothing, whatever the criteria, and the
    decision for the file is the one taken without any [cattrs]
    criteria, exceptions included. *)
Theorem cattrs_ignored_without_capability (sf : SearchFilter)
    (file : BoxFile.t) (file_size : Z)
    (c_in c_ex : list (list (string * string))) :
  BoxFile.cattrs file = None ->
  (forall in_func indx flt, cattrs_block in_func indx flt file = Ok Pass) /\
  evaluate {| in_filters := set_cattrs c_in (in_filters sf);
              ex_filters := set_cattrs c_ex (ex_filters sf) |} file file_size =
  evaluate sf file file_size.
Proof.
  intros Hnone. split.
  - intros in_func indx flt. unfold cattrs_block. rewrite Hnone. reflexivity.
  - assert (Hin : in_func {| in_filters := set_cattrs c_in (in_filters sf);
                             ex_filters := set_cattrs c_ex (ex_filters sf) |} =
                  in_func sf).
    { unfold in_func. simpl. rewrite re_set_cattrs. reflexivity. }
    apply evaluate_ext; intros fd; unfold incl_test, excl_test;
      rewrite Hin; simpl; apply block_set_cattrs, Hnone.
Qed.

(** ** The only exception of a round is [re.error] *)

Lemma bind_raises {A B : Type} (m : res A) (k : A -> res B) :
  raises_only_re m -> (forall a, raises_only_re (k a)) ->
  raises_only_re (m ≫= k).
Proof.
  intros Hm Hk e He. apply bind_inv_Raise in He as [He|(a & _ & He)].
  - exact (Hm e He).
  - exact (Hk a e He).
Qed.

Lemma Ok_raises {A : Type} (a : A) : raises_only_re (Ok a).
Proof. intros e [=]. Qed.

Lemma in_func_raises (sf : SearchFilter) (p s : string) :
  raises_only_re (in_func sf p s).
Proof.
  unfold in_func, re_search. destruct (Filter.re (in_filters sf));
    [destruct (re_compile p)|]; intros e [=]; auto.
Qed.

Lemma for_break_raises {A : Type} (test : A -> res bool) (l : list A) :
  (forall x, raises_only_re (test x)) -> raises_only_re (for_break test l).
Proof.
  intros Htest. induction l as [|x l IH]; simpl; [apply Ok_raises|].
  apply bind_raises; [apply Htest|]. intros [|]; [apply Ok_raises | exact IH].
Qed.

Lemma set_block_raises {A : Type} (indx : nat) (test : A -> res bool)
    (criteria : list A) :
  (forall x, raises_only_re (test x)) ->
  raises_only_re (set_block indx test criteria).
Proof.
  intros Htest. unfold set_block.
  apply bind_raises; [by apply for_break_raises|].
  intros [|]; [apply Ok_raises|]. destruct criteria; apply Ok_raises.
Qed.

Lemma cattrs_loop_raises (in_func : string -> string -> res bool) (indx : nat)
    (fc : gmap string string) (criteria rest : list (list (string * string)))
    (unset : bool) :
  (forall p s, raises_only_re (in_func p s)) ->
  raises_only_re (cattrs_loop in_func indx fc criteria rest unset).
Proof.
  intros Hin. revert unset.
  induction rest as [|cattr rest IH]; simpl; intros unset; [apply Ok_raises|].
  apply bind_raises.
  - apply for_break_raises. intros kv. unfold cattr_test.
    destruct (fc !! kv.1); [apply Hin | apply Ok_raises].
  - intros [|]; [apply IH|]. destruct criteria; [apply IH|].
    destruct (indx =? 0)%nat; [apply Ok_raises | apply IH].
Qed.

Lemma block_raises (in_func : string -> string -> res bool) (file : BoxFile.t)
    (file_size : Z) (indx : nat) (flt : Filter.t) (fd : field) :
  (forall p s, raises_only_re (in_func p s)) ->
  raises_only_re (block in_func file file_size indx flt fd).
Proof.
  intros Hin. destruct fd; simpl; try apply Ok_raises;
    try (apply set_block_raises; intros x; first [apply Hin | apply Ok_raises]).
  unfold cattrs_block. destruct (BoxFile.cattrs file); [|apply Ok_raises].
  apply bind_raises; [by apply cattrs_loop_raises|]. intros b. apply Ok_raises.
Qed.

Lemma run_body_raises (blocks : list (res outcome)) (indx : nat)
    (yr : list bool) :
  Forall raises_only_re blocks -> raises_only_re (run_body blocks indx yr).
Proof.
  intros HF. revert yr.
  induction HF as [|b blocks Hb _ IH]; simpl; intros yr; [apply Ok_raises|].
  apply bind_raises; [exact Hb|]. intros [| |]; auto using Ok_raises.
Qed.

Lemma evaluate_raises (sf : SearchFilter) (file : BoxFile.t) (file_size : Z) :
  raises_only_re (evaluate sf file file_size).
Proof.
  assert (Hblocks : forall indx flt,
    Forall raises_only_re (map (block (in_func sf) file file_size indx flt) fields)).
  { intros indx flt. rewrite List.Forall_map, List.Forall_forall.
    intros fd _. apply block_raises, in_func_raises. }
  unfold evaluate. rewrite yield_result_eq.
  apply bind_raises; [|intros yr; apply Ok_raises].
  apply bind_raises; [apply run_body_raises, Hblocks|].
  intros [yr0 [|]]; cbn [fst snd]; [|apply Ok_raises].
  apply bind_raises; [apply run_body_raises, Hblocks|].
  intros [yr1 [|]]; apply Ok_raises.
Qed.

(** ** The generator *)

Lemma generate_cons (sf : SearchFilter) (file : Item) (rest : list Item) :
  generate sf (file :: rest) =
  match probe file with
  | None => generate sf rest
  | Some (f, file_size) =>
      match evaluate sf f file_size with
      | Raise e => ([], Some e)
      | Ok true => (file :: (generate sf rest).1, (generate sf rest).2)
      | Ok false => generate sf rest
      end
  end.
Proof. reflexivity. Qed.

Lemma search_generator_Ok (sf : SearchFilter) (it_messages : option (list Item))
    (lb : option DecryptedLocalBox) (src : list Item) :
  iter_from sf it_messages lb = Ok src ->
  search_generator sf it_messages lb = generate sf src.
Proof. unfold search_generator. intros ->. reflexivity. Qed.

Lemma generate_skips_foreign (sf : SearchFilter) (pre post : list Item) :
  generate sf (pre ++ Foreign :: post) = generate sf (pre ++ post).
Proof.
  induction pre as [|file pre IH]; [reflexivity|].
  rewrite <- !app_comm_cons, !generate_cons, IH. reflexivity.
Qed.

Lemma generate_never_foreign (sf : SearchFilter) (src : list Item) :
  ~ In Foreign (generate sf src).1.
Proof.
  induction src as [|file src IH]; [simpl; tauto|].
  rewrite generate_cons. destruct file as [f|f|]; simpl; [| |exact IH];
    (destruct (evaluate sf f _) as [[|]|e]; simpl; [|exact IH|tauto]);
    intros [[=]|Hin]; auto.
Qed.

Lemma passes_box_file (sf : SearchFilter) (file : Item) (f : BoxFile.t)
    (file_size : Z) (b : bool) :
  probe file = Some (f, file_size) -> evaluate sf f file_size = Ok b ->
  passes sf file = b.
Proof. unfold passes. intros -> ->. reflexivity. Qed.

Lemma passes_not_box_file (sf : SearchFilter) (file : Item) :
  probe file = None -> passes sf file = false.
Proof. unfold passes. intros ->. reflexivity. Qed.

(** What a run of the generator leaves behind: without an exception,
    the passing elements of the source; with one, the passing elements
    of the part of the source before the file whose round raised. *)
Lemma generate_trace (sf : SearchFilter) (src : list Item) :
  match (generate sf src).2 with
  | None => (generate sf src).1 = List.filter (passes sf) src
  | Some e =>
      exists pre file f file_size post,
        src = pre ++ file :: post /\
        probe file = Some (f, file_size) /\
        evaluate sf f file_size = Raise e /\
        generate sf pre = (List.filter (passes sf) pre, None) /\
        (generate sf src).1 = List.filter (passes sf) pre
  end.
Proof.
  induction src as [|file src IH]; [reflexivity|].
  rewrite generate_cons. simpl List.filter.
  destruct (probe file) as [[f file_size]|] eqn:Hp.
  - destruct (evaluate sf f file_size) as [b|e] eqn:Hev.
    + rewrite (passes_box_file sf file f file_size b Hp Hev).
      assert (Hstep : forall pre,
        generate sf pre = (List.filter (passes sf) pre, None) ->
        generate sf (file :: pre) = (List.filter (passes sf) (file :: pre), None)).
      { intros pre Hpre. rewrite generate_cons, Hp, Hev, Hpre. simpl.
        rewrite (passes_box_file sf file f file_size b Hp Hev).
        destruct b; reflexivity. }
      destruct b; cbn [fst snd];
        (destruct (generate sf src).2 as [e|];
         [ destruct IH as (pre & file' & f' & fs' & post & -> & Hp' & Hev' & Hpre & Hout);
           exists (file :: pre), file', f', fs', post;
           rewrite (Hstep pre Hpre); simpl;
           rewrite (passes_box_file sf file f file_size _ Hp Hev), Hout; auto
         | rewrite IH; reflexivity ]).
    + cbn [fst snd]. exists [], file, f, file_size, src. auto.
  - rewrite (passes_not_box_file sf file Hp).
    destruct (generate sf src).2 as [e|]; [|exact IH].
    destruct IH as (pre & file' & f' & fs' & post & -> & Hp' & Hev' & Hpre & Hout).
    exists (file :: pre), file', f', fs', post.
    rewrite generate_cons, Hp, Hpre. simpl.
    rewrite (passes_not_box_file sf file Hp). auto.
Qed.

Lemma generate_well_formed (sf : SearchFilter) (src : list Item) :
  well_formed sf -> generate sf src = (List.filter (passes sf) src, None).
Proof.
  intros Hwf. pose proof (generate_trace sf src) as Htrace.
  destruct (generate sf src) as [out [e|]]; cbn [fst snd] in Htrace.
  - destruct Htrace as (pre & file & f & fs & post & _ & _ & Hev & _).
    destruct (evaluate_total sf f fs Hwf) as [b Hb]. congruence.
  - rewrite Htrace. reflexivity.
Qed.

Lemma generate_raises (sf : SearchFilter) (src : list Item) (e : exn) :
  (generate sf src).2 = Some e -> e = ReError.
Proof.
  intros He. pose proof (generate_trace sf src) as Htrace. rewrite He in Htrace.
  destruct Htrace as (pre & file & f & fs & post & _ & _ & Hev & _).
  exact (evaluate_raises sf f fs e Hev).
Qed.

(** C6.  The files yielded over a source are the passing elements of
    the source, in the order of the source, each once: on a
    well-formed filter the output is the source filtered by [passes],
    and in any case it is a prefix of the source filtered by [passes],
    the whole of it when no exception ended the run. *)
Theorem search_generator_yields_passing_subsequence (sf : SearchFilter)
    (it_messages : option (list Item)) (lb : option DecryptedLocalBox)
    (src : list Item) :
  iter_from sf it_messages lb = Ok src ->
  (well_formed sf ->
   search_generator sf it_messages lb = (List.filter (passes sf) src, None)) /\
  (exists pre post,
     src = pre ++ post /\
     (search_generator sf it_messages lb).1 = List.filter (passes sf) pre /\
     ((search_generator sf it_messages lb).2 = None -> post = [])).
Proof.
  intros Hsrc. rewrite (search_generator_Ok sf it_messages lb src Hsrc).
  split; [apply generate_well_formed|].
  pose proof (generate_trace sf src) as Htrace.
  destruct (generate sf src).2 as [e|].
  - destruct Htrace as (pre & file & f & fs & post & -> & _ & _ & _ & Hout).
    exists pre, (file :: post). split; [reflexivity|]. split; [exact Hout|].
    discriminate.
  - exists src, []. rewrite app_nil_r. auto.
Qed.

(** C7, as the code has it.  On a well-formed filter no round of the
    loop raises.  Nothing is checked when the generator is set up: over
    an empty source any filter, malformed or not, ends the run without
    an exception, and an exception of a run whose source was obtained
    is the [re.error] of the round of one file of the source, raised
    after the passing files before it were yielded. *)
Theorem patterns_are_compiled_per_file (sf : SearchFilter) :
  (well_formed sf ->
   forall file file_size, exists b, evaluate sf file file_size = Ok b) /\
  (forall lb, search_generator sf (Some []) lb = ([], None)) /\
  (forall it_messages lb src e,
     iter_from sf it_messages lb = Ok src ->
     (search_generator sf it_messages lb).2 = Some e ->
     e = ReError /\ ~ well_formed sf /\
     exists pre file f file_size post,
       src = pre ++ file :: post /\
       probe file = Some (f, file_size) /\
       evaluate sf f file_size = Raise ReError /\
       generate sf pre = (List.filter (passes sf) pre, None) /\
       (search_generator sf it_messages lb).1 = List.filter (passes sf) pre).
Proof.
  split; [intros Hwf file file_size; by apply evaluate_total|].
  split; [reflexivity|].
  intros it_messages lb src e Hsrc.
  rewrite (search_generator_Ok sf it_messages lb src Hsrc). intros He.
  pose proof (generate_raises sf src e He) as ->.
  pose proof (generate_trace sf src) as Htrace. rewrite He in Htrace.
  destruct Htrace as (pre & file & f & fs & post & Hsplit & Hp & Hev & Hpre & Hout).
  split; [reflexivity|]. split.
  - intros Hwf. destruct (evaluate_total sf f fs Hwf) as [b Hb]. congruence.
  - exists pre, file, f, fs, post. auto.
Qed.

(** C8, as the code has it.  With neither [it_messages] nor [lb] the
    generator ends with the [AttributeError] of [lb.files] on [None],
    before any file is read and with nothing yielded; the [ValueError]
    of line 222 is raised on no input at all. *)
Theorem no_source_raises_attribute_error (sf : SearchFilter) :
  search_generator sf None None = ([], Some AttributeError) /\
  (forall it_messages lb,
     (search_generator sf it_messages lb).2 <> Some ValueError).
Proof.
  split; [reflexivity|]. intros it_messages lb.
  destruct (iter_from sf it_messages lb) as [src|e] eqn:Hsrc.
  - rewrite (search_generator_Ok sf it_messages lb src Hsrc). intros He.
    apply generate_raises in He. discriminate.
  - unfold search_generator. rewrite Hsrc. simpl.
    unfold iter_from in Hsrc. destruct it_messages, lb; congruence.
Qed.

(** C10.  A source element that is neither a remote nor a local box
    file is skipped: the run over a source with such an element is the
    run over the source without it, exception or not, whatever the
    filter, and the element is never yielded. *)
Theorem foreign_elements_are_skipped (sf : SearchFilter)
    (it_messages : option (list Item)) (lb : option DecryptedLocalBox)
    (pre post : list Item) :
  iter_from sf it_messages lb = Ok (pre ++ Foreign :: post) ->
  search_generator sf it_messages lb = generate sf (pre ++ post) /\
  ~ In Foreign (search_generator sf it_messages lb).1 /\
  generate sf [Foreign] = ([], None).
Proof.
  intros Hsrc. rewrite (search_generator_Ok sf it_messages lb _ Hsrc).
  split; [apply generate_skips_foreign|].
  split; [apply generate_never_foreign | reflexivity].
Qed.

(** ** Set fields *)

Lemma for_break_hit {A : Type} (test : A -> res bool) (l : list A) (x : A) :
  (forall y, In y l -> exists b, test y = Ok b) ->
  In x l -> test x = Ok true -> for_break test l = Ok true.
Proof.
  induction l as [|y l IH]; simpl; intros Htot Hin Hx; [tauto|].
  destruct (Htot y) as [[|] Hy]; [auto| |]; rewrite Hy, bind_Ok; [reflexivity|].
  destruct Hin as [->|Hin]; [congruence|]. apply IH; auto.
Qed.

(** The for/else blocks take any one matching criterion: such a
    criterion passes the inclusion test and fails the exclusion test. *)
Lemma set_block_any {A : Type} (test : A -> res bool) (criteria : list A)
    (x : A) :
  (forall y, In y criteria -> exists b, test y = Ok b) ->
  In x criteria -> test x = Ok true ->
  set_block 0 test criteria = Ok Pass /\ set_block 1 test criteria = Ok Fail.
Proof.
  intros Htot Hin Hx. unfold set_block.
  rewrite (for_break_hit test criteria x Htot Hin Hx). split; reflexivity.
Qed.

(** The block of the custom attributes, in the include round, stops at
    the first criterion that does not match. *)
Lemma cattrs_loop_first_miss (in_func : string -> string -> res bool)
    (fc : gmap string string) (criteria hits rest : list (list (string * string)))
    (cattr : list (string * string)) (unset : bool) :
  criteria <> [] ->
  Forall (fun c => for_break (cattr_test in_func fc) c = Ok true) hits ->
  for_break (cattr_test in_func fc) cattr = Ok false ->
  cattrs_loop in_func 0 fc criteria (hits ++ cattr :: rest) unset = Ok false.
Proof.
  intros Hne Hhits Hmiss. revert unset.
  induction Hhits as [|c hits Hc _ IH]; simpl; intros unset.
  - rewrite Hmiss, bind_Ok. destruct criteria; [congruence | reflexivity].
  - rewrite Hc, bind_Ok. apply IH.
Qed.

End Properties.

(** * The properties on sample data *)

(** In substring mode every search filter is well-formed. *)
Lemma well_formed_substring_mode `{RL : RegexLib} (sf : SearchFilter) :
  Filter.re (in_filters sf) = false -> well_formed sf.
Proof. intros Hre Hre'. congruence. Qed.

(** A file uploaded before the bound fails [min_time], and still fails
    once criteria on [mime] and [exported] are added. *)
Lemma evaluate_conjunction_witness :
  agree_on MinTime since_1000 since_1000_more /\
  test_passes (incl_test (RL := MiniRe.lib) since_1000 early_file 100 MinTime) &&
  test_passes (excl_test (RL := MiniRe.lib) since_1000 early_file 100 MinTime)
  = false /\
  well_formed (RL := MiniRe.lib) since_1000_more /\
  evaluate (RL := MiniRe.lib) since_1000_more early_file 100 = Ok false.
Proof.
  assert (Hagree : agree_on MinTime since_1000 since_1000_more)
    by (repeat split).
  assert (Hwf : well_formed (RL := MiniRe.lib) since_1000_more)
    by (apply well_formed_substring_mode; reflexivity).
  split; [exact Hagree|]. split; [reflexivity|]. split; [exact Hwf|].
  destruct (evaluate_conjunction_of_field_tests (RL := MiniRe.lib)
              since_1000 early_file 100) as (_ & _ & _ & Hfail).
  destruct (Hfail since_1000_more MinTime Hagree eq_refl) as [_ Hfalse].
  exact (Hfalse Hwf).
Defined.

(** C2, at an input where the code departs from it.  The file has the
    attribute [b = y], so the second of the two mappings asked for
    matches it, and alone it lets the file through; with the two
    mappings the include test of the custom attributes sets
    [yield_result[0]] to [False] at the first mapping, and the file is
    not yielded. *)
Theorem cattrs_include_needs_every_mapping :
  for_break (cattr_test (in_func (RL := MiniRe.lib) two_mappings) {[ "b" := "y" ]})
    [("b", "y")] = Ok true /\
  evaluate (RL := MiniRe.lib) second_mapping file_with_b 100 = Ok true /\
  incl_test (RL := MiniRe.lib) two_mappings file_with_b 100 Cattrs = Ok Fail /\
  evaluate (RL := MiniRe.lib) two_mappings file_with_b 100 = Ok false /\
  search_generator (RL := MiniRe.lib) two_mappings
    (Some [LocalBoxFile file_with_b]) None = ([], None).
Proof. vm_compute. repeat split. Qed.

(** C3, at inputs where the code departs from it.  Lines 239-248 read
    of the [exported] entry its truth value and nothing else, so the
    criterion [False] cannot be asked for.  A bare [False] is falsy:
    the block is skipped, an exported file passes
    [include(exported=False)] and a file that is not exported passes
    [exclude(exported=False)], and both files of the source below are
    yielded.  A list [[False]] is truthy and [bool([False])] is
    [True]: the entry is read as [True], so that a file that is not
    exported fails the inclusion test and an exported one fails the
    exclusion test. *)
Theorem exported_false_is_not_honoured :
  (forall indx flt file,
     exported_block indx flt file =
     exported_block_on indx (entry_of (Filter.exported flt))
       (BoxFile.exported file)) /\
  (forall indx entry file_exported,
     exported_block_on indx entry file_exported =
     exported_block_on indx (EntryBool (entry_truthy entry)) file_exported) /\
  exported_block_on 0 (EntryBool false) true = Pass /\
  exported_block_on 1 (EntryBool false) false = Pass /\
  exported_block_on 0 (EntryList [false]) false = FailBreak /\
  exported_block_on 0 (EntryList [false]) true = Pass /\
  exported_block_on 1 (EntryList [false]) false = Pass /\
  exported_block_on 1 (EntryList [false]) true = FailBreak /\
  BoxFile.exported early_file = false /\
  BoxFile.exported latest_file = true /\
  search_generator (RL := MiniRe.lib)
    {| in_filters := exported_false; ex_filters := Filter.empty |}
    (Some [RemoteBoxFile early_file; LocalBoxFile latest_file]) None =
    ([RemoteBoxFile early_file; LocalBoxFile latest_file], None) /\
  search_generator (RL := MiniRe.lib)
    {| in_filters := Filter.empty; ex_filters := exported_false |}
    (Some [RemoteBoxFile early_file; LocalBoxFile latest_file]) None =
    ([RemoteBoxFile early_file; LocalBoxFile latest_file], None).
Proof.
  split; [exact exported_block_entry|].
  split; [exact exported_block_truth_value|].
  vm_compute. repeat split.
Qed.

(** Of three files the first and the third were uploaded late enough:
    they are yielded, in that order. *)
Lemma search_generator_subsequence_witness :
  iter_from since_1000 (Some three_files) None
    = Ok three_files /\
  well_formed (RL := MiniRe.lib) since_1000 /\
  search_generator (RL := MiniRe.lib) since_1000 (Some three_files) None =
    ([RemoteBoxFile later_file; LocalBoxFile latest_file], None).
Proof.
  assert (Hwf : well_formed (RL := MiniRe.lib) since_1000)
    by (apply well_formed_substring_mode; reflexivity).
  split; [reflexivity|]. split; [exact Hwf|].
  destruct (search_generator_yields_passing_subsequence (RL := MiniRe.lib)
              since_1000 (Some three_files) None three_files eq_refl)
    as [Hall _].
  rewrite (Hall Hwf). vm_compute. reflexivity.
Defined.

(** C7 fails on a malformed pattern: the filter below has the pattern
    [*] in regex mode.  Over an empty source the run ends without any
    exception; over two files the first is evaluated and yielded, and
    [re.error] is raised in the round of the second. *)
Lemma malformed_pattern_raises_late :
  ~ well_formed (RL := MiniRe.lib) star_pattern /\
  search_generator (RL := MiniRe.lib) star_pattern (Some []) None = ([], None) /\
  evaluate (RL := MiniRe.lib) star_pattern file_without_k 100 = Ok true /\
  evaluate (RL := MiniRe.lib) star_pattern file_with_k 100 = Raise ReError /\
  search_generator (RL := MiniRe.lib) star_pattern
    (Some [RemoteBoxFile file_without_k; RemoteBoxFile file_with_k]) None =
    ([RemoteBoxFile file_without_k], Some ReError).
Proof.
  split.
  - intros Hwf. destruct (Hwf eq_refl "*") as [r Hr]; [|discriminate Hr].
    simpl. auto.
  - vm_compute. repeat split.
Qed.

(** The run over the two files ends with [re.error], raised in the
    round of a file of the source. *)
Lemma patterns_per_file_witness :
  iter_from star_pattern
    (Some [RemoteBoxFile file_without_k; RemoteBoxFile file_with_k]) None =
    Ok [RemoteBoxFile file_without_k; RemoteBoxFile file_with_k] /\
  (search_generator (RL := MiniRe.lib) star_pattern
     (Some [RemoteBoxFile file_without_k; RemoteBoxFile file_with_k]) None).2 =
    Some ReError /\
  exists pre file f file_size post,
    [RemoteBoxFile file_without_k; RemoteBoxFile file_with_k] =
      pre ++ file :: post /\
    probe file = Some (f, file_size) /\
    evaluate (RL := MiniRe.lib) star_pattern f file_size = Raise ReError /\
    generate (RL := MiniRe.lib) star_pattern pre =
      (List.filter (passes (RL := MiniRe.lib) star_pattern) pre, None) /\
    (search_generator (RL := MiniRe.lib) star_pattern
       (Some [RemoteBoxFile file_without_k; RemoteBoxFile file_with_k]) None).1 =
      List.filter (passes (RL := MiniRe.lib) star_pattern) pre.
Proof.
  split; [reflexivity|]. split; [vm_compute; reflexivity|].
  destruct (patterns_are_compiled_per_file (RL := MiniRe.lib) star_pattern)
    as (_ & _ & Hraise).
  destruct (Hraise (Some [RemoteBoxFile file_without_k; RemoteBoxFile file_with_k])
              None _ ReError eq_refl) as (_ & _ & Hex).
  - vm_compute. reflexivity.
  - exact Hex.
Defined.

(** A file without custom attributes is decided alike whatever the
    [cattrs] criteria, a malformed pattern among them. *)
Lemma cattrs_ignored_witness :
  BoxFile.cattrs later_file = None /\
  evaluate (RL := MiniRe.lib)
    {| in_filters := set_cattrs [[("k", "*")]] (in_filters star_pattern);
       ex_filters := set_cattrs [[("a", "x")]; []] (ex_filters star_pattern) |}
    later_file 100 =
  evaluate (RL := MiniRe.lib) star_pattern later_file 100 /\
  evaluate (RL := MiniRe.lib) star_pattern later_file 100 = Ok true.
Proof.
  split; [reflexivity|]. split; [|vm_compute; reflexivity].
  apply (cattrs_ignored_without_capability (RL := MiniRe.lib) star_pattern
           later_file 100 [[("k", "*")]] [[("a", "x")]; []] eq_refl).
Defined.

(** A foreign element between two box files leaves no mark. *)
Lemma foreign_elements_witness :
  iter_from no_filters
    (Some [RemoteBoxFile later_file; Foreign; LocalBoxFile latest_file]) None =
    Ok ([RemoteBoxFile later_file] ++ Foreign :: [LocalBoxFile latest_file]) /\
  search_generator (RL := MiniRe.lib) no_filters
    (Some [RemoteBoxFile later_file; Foreign; LocalBoxFile latest_file]) None =
    generate (RL := MiniRe.lib) no_filters
      ([RemoteBoxFile later_file] ++ [LocalBoxFile latest_file]) /\
  generate (RL := MiniRe.lib) no_filters
    ([RemoteBoxFile later_file] ++ [LocalBoxFile latest_file]) =
    ([RemoteBoxFile later_file; LocalBoxFile latest_file], None).
Proof.
  split; [reflexivity|]. split; [|vm_compute; reflexivity].
  apply (foreign_elements_are_skipped (RL := MiniRe.lib) no_filters
           (Some [RemoteBoxFile later_file; Foreign; LocalBoxFile latest_file])
           None [RemoteBoxFile later_file] [LocalBoxFile latest_file] eq_refl).
Defined.

(** * More properties of the generator *)

Section MoreProperties.
Context `{RL : RegexLib}.

(** ** Filters that ask for nothing *)

Lemma blank_block_pass (in_func : string -> string -> res bool)
    (file : BoxFile.t) (file_size : Z) (indx : nat) (exported : option bool)
    (re : bool) (fd : field) :
  truthy exported = false ->
  block in_func file file_size indx (blank exported re) fd = Ok Pass.
Proof.
  intros Hfalsy. destruct fd; simpl; try reflexivity.
  - unfold exported_block. simpl. rewrite Hfalsy. reflexivity.
  - unfold cattrs_block. simpl. destruct (BoxFile.cattrs file); reflexivity.
Qed.

Lemma generate_all_pass (sf : SearchFilter) (src : list Item) :
  (forall file f file_size, In file src -> probe file = Some (f, file_size) ->
     evaluate sf f file_size = Ok true) ->
  generate sf src = (List.filter is_box_file src, None).
Proof.
  induction src as [|file src IH]; intros Hall; [reflexivity|].
  rewrite generate_cons. simpl List.filter. unfold is_box_file at 1.
  destruct (probe file) as [[f file_size]|] eqn:Hp.
  - rewrite (Hall file f file_size (or_introl eq_refl) Hp).
    rewrite IH by (intros; eapply Hall; [right|]; eassumption). reflexivity.
  - apply IH. intros; eapply Hall; [right|]; eassumption.
Qed.

(** With no criterion in either filter every box file of the source is
    yielded, in order, and nothing is raised, whatever the matching
    mode. *)
Theorem blank_filters_yield_every_box_file (e_in e_ex : option bool)
    (re_in re_ex : bool) (it_messages : option (list Item))
    (lb : option DecryptedLocalBox) (src : list Item) :
  truthy e_in = false -> truthy e_ex = false ->
  iter_from {| in_filters := blank e_in re_in; ex_filters := blank e_ex re_ex |}
    it_messages lb = Ok src ->
  search_generator
    {| in_filters := blank e_in re_in; ex_filters := blank e_ex re_ex |}
    it_messages lb = (List.filter is_box_file src, None).
Proof.
  intros Hin Hex Hsrc. rewrite (search_generator_Ok _ _ _ _ Hsrc).
  apply generate_all_pass. intros file f file_size _ _.
  apply evaluate_true_iff. intros fd.
  split; apply blank_block_pass; assumption.
Qed.

(** ** The for/else blocks *)

Lemma for_break_false_iff {A : Type} (test : A -> res bool) (l : list A) :
  for_break test l = Ok false <-> forall x, In x l -> test x = Ok false.
Proof.
  induction l as [|y l IH]; simpl.
  - split; [tauto | reflexivity].
  - destruct (test y) as [[|]|e] eqn:Hy; rewrite ?bind_Ok, ?bind_Raise.
    + split; [discriminate|]. intros Hall.
      specialize (Hall y (or_introl eq_refl)). congruence.
    + rewrite IH. split.
      * intros Hall x [<-|Hx]; auto.
      * intros Hall x Hx. apply Hall. auto.
    + split; [discriminate|]. intros Hall.
      specialize (Hall y (or_introl eq_refl)). congruence.
Qed.

Lemma for_break_true_hit {A : Type} (test : A -> res bool) (l : list A) :
  for_break test l = Ok true -> exists x, In x l /\ test x = Ok true.
Proof.
  induction l as [|y l IH]; simpl; [discriminate|].
  destruct (test y) as [[|]|e] eqn:Hy; rewrite ?bind_Ok, ?bind_Raise;
    [eauto | | discriminate].
  intros Hrest. destruct (IH Hrest) as (x & Hx & Htest). eauto.
Qed.

Lemma for_break_cases {A : Type} (test : A -> res bool) (l : list A) :
  (forall x, In x l -> exists b, test x = Ok b) ->
  (for_break test l = Ok true /\ exists x, In x l /\ test x = Ok true) \/
  (for_break test l = Ok false /\ forall x, In x l -> test x = Ok false).
Proof.
  intros Htot. destruct (for_break_total test l Htot) as [[|] Hb].
  - left. split; [exact Hb | by apply for_break_true_hit].
  - right. split; [exact Hb | by apply for_break_false_iff].
Qed.

(** The blocks of [mime], [id], [file_path], [file_name], [file_salt]
    and [verbyte], when no test raises: the include round passes when
    the list is empty or some entry matches and breaks out otherwise;
    the exclude round fails, without a break, exactly when some entry
    matches. *)
Theorem set_block_decides_by_any_match {A : Type} (test : A -> res bool)
    (criteria : list A) :
  (forall x, In x criteria -> exists b, test x = Ok b) ->
  (set_block 0 test criteria = Ok Pass <->
   criteria = [] \/ exists x, In x criteria /\ test x = Ok true) /\
  (set_block 0 test criteria = Ok FailBreak <->
   criteria <> [] /\ forall x, In x criteria -> test x = Ok false) /\
  (set_block 1 test criteria = Ok Fail <->
   exists x, In x criteria /\ test x = Ok true) /\
  (set_block 1 test criteria = Ok Pass <->
   forall x, In x criteria -> test x = Ok false).
Proof.
  intros Htot. unfold set_block.
  destruct (for_break_cases test criteria Htot)
    as [[-> (x & Hx & Hhit)]|[-> Hmiss]]; rewrite bind_Ok; simpl.
  - assert (Hnot : ~ forall y, In y criteria -> test y = Ok false).
    { intros Hall. specialize (Hall x Hx). congruence. }
    repeat split; try discriminate; try tauto; eauto.
  - assert (Hnone : ~ exists y, In y criteria /\ test y = Ok true).
    { intros (y & Hy & Hhit). specialize (Hmiss y Hy). congruence. }
    destruct criteria as [|c criteria]; simpl;
      repeat split; try discriminate; try tauto; auto;
      try (intros [Hne _]; congruence); try (intros [[=]|Hex]; tauto).
Qed.

(** ** Bounds *)

Lemma min_block_pass_iff (indx : nat) (value : Z) (bounds : list Z) :
  (indx = 0 \/ indx = 1)%nat ->
  (min_block indx value bounds = Pass <->
   forall b, last bounds = Some b ->
     if (indx =? 0)%nat then b <= value else value < b).
Proof.
  unfold min_block. intros [->| ->]; simpl;
    (destruct (last bounds) as [b|]; [|split; [discriminate | reflexivity]]);
    destruct (Z.ltb_spec value b); simpl.
  - split; [discriminate|]. intros Hb. specialize (Hb b eq_refl). lia.
  - split; [intros _ b' [= <-]; lia|]. destruct (value >=? b); reflexivity.
  - split; [intros _ b' [= <-]; lia | reflexivity].
  - replace (value >=? b) with true by (symmetry; apply Z.geb_le; lia).
    split; [discriminate|]. intros Hb. specialize (Hb b eq_refl). lia.
Qed.

Lemma max_block_pass_iff (indx : nat) (value : Z) (bounds : list Z) :
  (indx = 0 \/ indx = 1)%nat ->
  (max_block indx value bounds = Pass <->
   forall b, last bounds = Some b ->
     if (indx =? 0)%nat then value <= b else b < value).
Proof.
  unfold max_block. intros [->| ->]; simpl;
    (destruct (last bounds) as [b|]; [|split; [discriminate | reflexivity]]);
    rewrite Z.gtb_ltb; destruct (Z.ltb_spec b value); simpl.
  - split; [discriminate|]. intros Hb. specialize (Hb b eq_refl). lia.
  - split; [intros _ b' [= <-]; lia|]. destruct (value <=? b); reflexivity.
  - split; [intros _ b' [= <-]; lia | reflexivity].
  - replace (value <=? b) with true by (symmetry; apply Z.leb_le; lia).
    split; [discriminate|]. intros Hb. specialize (Hb b eq_refl). lia.
Qed.

Lemma range_block_sound (in_func : string -> string -> res bool)
    (file : BoxFile.t) (file_size : Z) (indx : nat) (flt : Filter.t)
    (rf : range_field) (b : Z) :
  (indx = 0 \/ indx = 1)%nat ->
  block in_func file file_size indx flt (field_of rf) = Ok Pass ->
  last (get_bounds rf flt) = Some b ->
  respects rf indx (range_value rf file file_size) b.
Proof.
  intros Hindx Hpass Hlast. unfold respects.
  destruct rf; cbn [block field_of get_bounds range_value is_lower] in *;
    injection Hpass as Hpass;
    first [ exact (proj1 (min_block_pass_iff indx _ _ Hindx) Hpass b Hlast)
          | exact (proj1 (max_block_pass_iff indx _ _ Hindx) Hpass b Hlast) ].
Qed.

Lemma generate_yielded_pass (sf : SearchFilter) (src : list Item) (item : Item) :
  In item (generate sf src).1 ->
  exists f file_size,
    probe item = Some (f, file_size) /\ evaluate sf f file_size = Ok true.
Proof.
  induction src as [|file src IH]; [simpl; tauto|].
  rewrite generate_cons.
  destruct (probe file) as [[f file_size]|] eqn:Hp; [|exact IH].
  destruct (evaluate sf f file_size) as [[|]|e] eqn:Hev; simpl;
    [|exact IH|tauto].
  intros [<-|Hin]; [eauto | auto].
Qed.

Lemma generate_yielded_bounds (sf : SearchFilter) (src : list Item)
    (item : Item) :
  In item (generate sf src).1 ->
  exists f file_size,
    probe item = Some (f, file_size) /\
    forall rf b,
      (last (get_bounds rf (in_filters sf)) = Some b ->
       respects rf 0 (range_value rf f file_size) b) /\
      (last (get_bounds rf (ex_filters sf)) = Some b ->
       respects rf 1 (range_value rf f file_size) b).
Proof.
  intros Hin. destruct (generate_yielded_pass sf src item Hin)
    as (f & file_size & Hp & Hev).
  exists f, file_size. split; [exact Hp|]. intros rf b.
  pose proof (proj1 (evaluate_true_iff sf f file_size) Hev (field_of rf))
    as [Hi He].
  split; intros Hlast; eapply range_block_sound; eauto.
Qed.

(** Every file the generator yields, from either source, lies within
    the last bound of each range entry of the include filter and
    strictly beyond the last bound of each range entry of the exclude
    filter. *)
Theorem yielded_files_respect_bounds (sf : SearchFilter)
    (it_messages : option (list Item)) (lb : option DecryptedLocalBox)
    (item : Item) :
  In item (search_generator sf it_messages lb).1 ->
  exists f file_size,
    probe item = Some (f, file_size) /\
    forall rf b,
      (last (get_bounds rf (in_filters sf)) = Some b ->
       if is_lower rf then b <= range_value rf f file_size
       else range_value rf f file_size <= b) /\
      (last (get_bounds rf (ex_filters sf)) = Some b ->
       if is_lower rf then range_value rf f file_size < b
       else b < range_value rf f file_size).
Proof.
  unfold search_generator.
  destruct (iter_from sf it_messages lb) as [src|e]; simpl; [|tauto].
  intros Hin. destruct (generate_yielded_bounds sf src item Hin)
    as (f & file_size & Hp & Hb).
  exists f, file_size. split; [exact Hp|]. intros rf b.
  destruct (Hb rf b) as [Hi He]. unfold respects in Hi, He. simpl in Hi, He.
  destruct (is_lower rf); auto.
Qed.

Lemma range_value_lower_upper (q : quantity) (f : BoxFile.t) (file_size : Z) :
  range_value (lower q) f file_size = range_value (upper q) f file_size.
Proof. destruct q; reflexivity. Qed.

(** Bounds that no value meets leave nothing to yield: an include
    filter whose lower bound exceeds its upper bound, and also an
    exclude filter whose lower bound does not exceed its upper bound,
    since a file must then be below the one and above the other. *)
Theorem contradictory_bounds_yield_nothing (sf : SearchFilter)
    (it_messages : option (list Item)) (lb : option DecryptedLocalBox)
    (q : quantity) (a b : Z) :
  (last (get_bounds (lower q) (in_filters sf)) = Some a /\
   last (get_bounds (upper q) (in_filters sf)) = Some b /\ b < a) \/
  (last (get_bounds (lower q) (ex_filters sf)) = Some a /\
   last (get_bounds (upper q) (ex_filters sf)) = Some b /\ a <= b) ->
  (search_generator sf it_messages lb).1 = [].
Proof.
  intros Hbounds. unfold search_generator.
  destruct (iter_from sf it_messages lb) as [src|e]; [|reflexivity]. simpl.
  destruct (generate sf src).1 as [|item out] eqn:Hout; [reflexivity|].
  exfalso.
  destruct (generate_yielded_bounds sf src item) as (f & file_size & _ & Hb).
  { rewrite Hout. left. reflexivity. }
  pose proof (range_value_lower_upper q f file_size) as Heq.
  destruct Hbounds as [(Ha & Hb' & Hlt)|(Ha & Hb' & Hle)].
  - pose proof (proj1 (Hb (lower q) a) Ha) as Hlo.
    pose proof (proj1 (Hb (upper q) b) Hb') as Hhi.
    unfold respects in Hlo, Hhi. destruct q; simpl in *; lia.
  - pose proof (proj2 (Hb (lower q) a) Ha) as Hlo.
    pose proof (proj2 (Hb (upper q) b) Hb') as Hhi.
    unfold respects in Hlo, Hhi. destruct q; simpl in *; lia.
Qed.

(** ** The matching mode and the order of the rounds *)

Lemma generate_ext (sf sf' : SearchFilter) (src : list Item) :
  (forall f file_size, evaluate sf f file_size = evaluate sf' f file_size) ->
  generate sf src = generate sf' src.
Proof.
  intros Hev. induction src as [|file src IH]; [reflexivity|].
  rewrite !generate_cons, IH.
  destruct (probe file) as [[f file_size]|]; [rewrite Hev|]; reflexivity.
Qed.

Lemma block_set_re (in_func : string -> string -> res bool) (file : BoxFile.t)
    (file_size : Z) (indx : nat) (re : bool) (flt : Filter.t) (fd : field) :
  block in_func file file_size indx (set_re re flt) fd =
  block in_func file file_size indx flt fd.
Proof. destruct flt, fd; reflexivity. Qed.

(** The [re] entry of the exclude filter is never read: the patterns
    of both filters are matched in the mode of the include filter. *)
Theorem exclude_mode_is_ignored (fi fe : Filter.t) (re : bool)
    (it_messages : option (list Item)) (lb : option DecryptedLocalBox) :
  search_generator {| in_filters := fi; ex_filters := set_re re fe |}
    it_messages lb =
  search_generator {| in_filters := fi; ex_filters := fe |} it_messages lb.
Proof.
  unfold search_generator.
  change (iter_from {| in_filters := fi; ex_filters := set_re re fe |}
            it_messages lb)
    with (iter_from {| in_filters := fi; ex_filters := fe |} it_messages lb).
  destruct (iter_from _ it_messages lb) as [src|e]; [|reflexivity].
  destruct (negb (generator_truthy src)); [reflexivity|].
  apply generate_ext. intros f file_size.
  apply evaluate_ext; intros fd; unfold incl_test, excl_test; simpl;
    [reflexivity | apply block_set_re].
Qed.

Lemma run_body_break (before after : list (res outcome)) (indx : nat)
    (yr : list bool) :
  Forall (fun b => exists o, b = Ok o) before ->
  run_body (before ++ Ok FailBreak :: after) indx yr =
  Ok (<[indx := false]> yr, Break).
Proof.
  intros HF. revert yr.
  induction HF as [|b before [o ->] _ IH]; simpl; intros yr; [reflexivity|].
  destruct o; [apply IH | | reflexivity].
  rewrite IH, list_insert_insert_eq. reflexivity.
Qed.

(** When a block of the include round breaks out of the loop over the
    filters, and the blocks before it have raised nothing, the file is
    rejected at once: neither the rest of the include round nor the
    exclude filter is evaluated, so the decision is the same whatever
    they hold, malformed patterns included. *)
Theorem include_break_skips_exclude (sf : SearchFilter) (file : BoxFile.t)
    (file_size : Z) (before after : list field) (fd : field) (fe : Filter.t) :
  fields = before ++ fd :: after ->
  (forall fd', In fd' before ->
     exists o, incl_test sf file file_size fd' = Ok o) ->
  incl_test sf file file_size fd = Ok FailBreak ->
  evaluate {| in_filters := in_filters sf; ex_filters := fe |} file file_size
  = Ok false.
Proof.
  unfold incl_test. intros Hfields Htot Hbreak.
  unfold evaluate. rewrite yield_result_eq.
  change (in_func {| in_filters := in_filters sf; ex_filters := fe |})
    with (in_func sf). cbn [in_filters].
  rewrite Hfields, !List.map_app. cbn [map]. rewrite Hbreak, run_body_break.
  - reflexivity.
  - rewrite List.Forall_map, List.Forall_forall. exact Htot.
Qed.

(** ** Pulls *)

Lemma next_file_cons (sf : SearchFilter) (file : Item) (rest : list Item) :
  next_file sf (file :: rest) =
  match probe file with
  | None => next_file sf rest
  | Some (f, file_size) =>
      match evaluate sf f file_size with
      | Raise e => Raise e
      | Ok true => Ok (Some (file, rest))
      | Ok false => next_file sf rest
      end
  end.
Proof. reflexivity. Qed.

Lemma generate_next_file (sf : SearchFilter) (src : list Item) :
  generate sf src =
  match next_file sf src with
  | Raise e => ([], Some e)
  | Ok None => ([], None)
  | Ok (Some (file, rest)) =>
      (file :: (generate sf rest).1, (generate sf rest).2)
  end.
Proof.
  induction src as [|file src IH]; [reflexivity|].
  rewrite generate_cons, next_file_cons.
  destruct (probe file) as [[f file_size]|]; [|exact IH].
  destruct (evaluate sf f file_size) as [[|]|e]; [reflexivity | exact IH | reflexivity].
Qed.

Lemma next_file_split (sf : SearchFilter) (src rest : list Item) (file : Item) :
  next_file sf src = Ok (Some (file, rest)) ->
  exists skipped,
    src = skipped ++ file :: rest /\
    Forall (fun x => passes sf x = false) skipped /\
    passes sf file = true /\
    forall rest', next_file sf (skipped ++ file :: rest') = Ok (Some (file, rest')).
Proof.
  induction src as [|x src IH]; [discriminate|].
  rewrite next_file_cons.
  destruct (probe x) as [[f file_size]|] eqn:Hp.
  - destruct (evaluate sf f file_size) as [[|]|e] eqn:Hev; [| |discriminate].
    + intros [= <- <-]. exists []. simpl. rewrite Hp, Hev.
      repeat split; [constructor|]. apply (passes_box_file sf x f file_size true Hp Hev).
    + intros Hnext. destruct (IH Hnext) as (skipped & -> & Hskip & Hpass & Hlazy).
      exists (x :: skipped). repeat split; [|exact Hpass|].
      * constructor; [|exact Hskip].
        apply (passes_box_file sf x f file_size false Hp Hev).
      * intros rest'. rewrite <- app_comm_cons, next_file_cons, Hp, Hev.
        apply Hlazy.
  - intros Hnext. destruct (IH Hnext) as (skipped & -> & Hskip & Hpass & Hlazy).
    exists (x :: skipped). repeat split; [|exact Hpass|].
    + constructor; [|exact Hskip]. apply (passes_not_box_file sf x Hp).
    + intros rest'. rewrite <- app_comm_cons, next_file_cons, Hp. apply Hlazy.
Qed.

(** The generator is lazy.  A pull that yields a file has read the
    source up to that file and no further: the elements before it did
    not pass, the outcome is the same whatever follows the file in the
    source, and the remaining pulls are the run over the rest. *)
Theorem first_pull_is_lazy (sf : SearchFilter) (src rest : list Item)
    (file : Item) :
  next_file sf src = Ok (Some (file, rest)) ->
  (exists skipped,
     src = skipped ++ file :: rest /\
     Forall (fun x => passes sf x = false) skipped /\
     passes sf file = true /\
     forall rest',
       next_file sf (skipped ++ file :: rest') = Ok (Some (file, rest'))) /\
  generate sf src = (file :: (generate sf rest).1, (generate sf rest).2).
Proof.
  intros Hnext. split; [by apply next_file_split|].
  rewrite generate_next_file, Hnext. reflexivity.
Qed.

(** ** Runs composed *)

Lemma generate_app (sf : SearchFilter) (pre post : list Item) :
  generate sf (pre ++ post) =
  match (generate sf pre).2 with
  | None => ((generate sf pre).1 ++ (generate sf post).1, (generate sf post).2)
  | Some e => generate sf pre
  end.
Proof.
  induction pre as [|file pre IH].
  - simpl. destruct (generate sf post); reflexivity.
  - rewrite <- app_comm_cons, !generate_cons.
    destruct (probe file) as [[f file_size]|]; [|exact IH].
    destruct (evaluate sf f file_size) as [[|]|e]; [|exact IH|reflexivity].
    rewrite IH. cbn [fst snd].
    destruct (generate sf pre) as [out [e|]]; reflexivity.
Qed.

(** The run over two sources, one after the other: when the first
    ends without an exception, the files of the first run followed by
    the run over the second; otherwise the first run alone, the second
    source not being read. *)
Theorem run_over_concatenation (sf : SearchFilter) (pre post : list Item)
    (lb : option DecryptedLocalBox) :
  search_generator sf (Some (pre ++ post)) lb =
  match (search_generator sf (Some pre) lb).2 with
  | None =>
      ((search_generator sf (Some pre) lb).1 ++
       (search_generator sf (Some post) lb).1,
       (search_generator sf (Some post) lb).2)
  | Some e => search_generator sf (Some pre) lb
  end.
Proof.
  rewrite !(search_generator_Ok sf (Some _) lb _ eq_refl). apply generate_app.
Qed.

Lemma generate_of_passing (sf : SearchFilter) (out : list Item) :
  Forall (fun item => exists f file_size,
            probe item = Some (f, file_size) /\
            evaluate sf f file_size = Ok true) out ->
  generate sf out = (out, None).
Proof.
  induction 1 as [|item out (f & file_size & Hp & Hev) _ IH]; [reflexivity|].
  rewrite generate_cons, Hp, Hev, IH. reflexivity.
Qed.

(** Filtering again what a run has yielded, with the same filter,
    yields all of it once more and raises nothing, even when the first
    run ended with an exception. *)
Theorem refiltering_is_idempotent (sf : SearchFilter)
    (it_messages : option (list Item)) (lb lb' : option DecryptedLocalBox) :
  search_generator sf (Some (search_generator sf it_messages lb).1) lb' =
  ((search_generator sf it_messages lb).1, None).
Proof.
  rewrite (search_generator_Ok sf (Some _) lb' _ eq_refl).
  apply generate_of_passing, List.Forall_forall. intros item.
  unfold search_generator.
  destruct (iter_from sf it_messages lb) as [src|e]; simpl; [|tauto].
  apply generate_yielded_pass.
Qed.

(** ** Custom attributes *)


Lemma criterion_of_absent_keys (in_func : string -> string -> res bool)
    (fc : gmap string string) (cattr : list (string * string)) :
  (forall kv, In kv cattr -> fc !! kv.1 = None) ->
  for_break (cattr_test in_func fc) cattr = Ok false.
Proof.
  intros Habsent. apply for_break_false_iff. intros kv Hkv.
  unfold cattr_test. rewrite (Habsent kv Hkv). reflexivity.
Qed.

Lemma cattrs_loop_exclude_absent (in_func : string -> string -> res bool)
    (fc : gmap string string) (criteria rest : list (list (string * string)))
    (unset : bool) :
  (forall cattr kv, In cattr rest -> In kv cattr -> fc !! kv.1 = None) ->
  cattrs_loop in_func 1 fc criteria rest unset = Ok unset.
Proof.
  revert unset. induction rest as [|cattr rest IH]; simpl; intros unset Habsent;
    [reflexivity|].
  rewrite criterion_of_absent_keys, bind_Ok by (intros; eapply Habsent; eauto).
  destruct criteria; apply IH; intros; eapply Habsent; eauto.
Qed.

(** A file that has custom attributes, but none of the keys asked
    for: the patterns are not even tried, so nothing is raised; it
    fails the include test as soon as one mapping is asked for, and
    passes the exclude test. *)
Theorem cattrs_of_absent_keys_never_hit
    (in_func : string -> string -> res bool) (flt : Filter.t)
    (file : BoxFile.t) (fc : gmap string string) :
  BoxFile.cattrs file = Some fc ->
  (forall cattr kv, In cattr (Filter.cattrs flt) -> In kv cattr ->
     fc !! kv.1 = None) ->
  cattrs_block in_func 0 flt file =
    Ok (match Filter.cattrs flt with [] => Pass | _ :: _ => Fail end) /\
  cattrs_block in_func 1 flt file = Ok Pass.
Proof.
  intros Hfc Habsent. unfold cattrs_block. rewrite Hfc. split.
  - destruct (Filter.cattrs flt) as [|cattr rest]; [reflexivity|]. simpl.
    rewrite criterion_of_absent_keys; [reflexivity|].
    intros kv Hkv. apply (Habsent cattr kv); simpl; auto.
  - rewrite cattrs_loop_exclude_absent by exact Habsent. reflexivity.
Qed.



End MoreProperties.

(** * The Telegram client *)

Lemma truthy_string_nonempty (o : option string) :
  Telegram.truthy_string o = true -> exists p, o = Some p /\ p <> "".
Proof.
  destruct o as [p|]; simpl; [|discriminate]. intros Hp. exists p.
  split; [reflexivity|]. intros ->. discriminate.
Qed.

(** The [ValueError] of line 98 ends [__init__] exactly when it is
    given neither a session nor a phone number, empty strings counting
    for nothing, and then Telethon's constructor is not reached;
    otherwise [__init__] ends as Telethon's constructor does.  So a
    client that was made without a session has a phone number that is
    not empty, and that is the number its code requests go to. *)
Theorem client_without_session_has_phone
    (super_init : option Telegram.session_arg -> Z -> string ->
                  option Telegram.telethon_error)
    (api_id : Z) (api_hash : string)
    (phone_number : option string) (session : option Telegram.session_arg) :
  (Telegram.init super_init api_id api_hash phone_number session =
     Telegram.Refused <->
   Telegram.truthy_session session = false /\
   Telegram.truthy_string phone_number = false) /\
  (Telegram.truthy_session session = true \/
   Telegram.truthy_string phone_number = true ->
   Telegram.init super_init api_id api_hash phone_number session =
     match super_init session api_id api_hash with
     | Some e => Telegram.Raised e
     | None =>
         Telegram.Made
           {| Telegram.session := session; Telegram._api_id := api_id;
              Telegram._api_hash := api_hash;
              Telegram._phone_number := phone_number |}
     end) /\
  (forall tc,
     Telegram.init super_init api_id api_hash phone_number session =
       Telegram.Made tc ->
     Telegram.truthy_session session = false ->
     exists p,
       p <> "" /\
       forall force_sms phone_code_hash,
         Telegram.send_code tc force_sms =
           Telegram.SendCodeRequest (Some p) force_sms /\
         Telegram.resend_code tc phone_code_hash =
           Telegram.ResendCodeRequest (Some p) phone_code_hash).
Proof.
  unfold Telegram.init. split; [|split].
  - destruct (Telegram.truthy_session session),
      (Telegram.truthy_string phone_number); simpl;
      destruct (super_init session api_id api_hash);
      split; try discriminate; try tauto; intros [[=] [=]].
  - destruct (Telegram.truthy_session session),
      (Telegram.truthy_string phone_number); simpl; try reflexivity.
    intros [[=]|[=]].
  - intros tc Hinit Hsession. rewrite Hsession in Hinit. simpl in Hinit.
    destruct (Telegram.truthy_string phone_number) eqn:Hphone;
      [|discriminate]. simpl in Hinit.
    destruct (super_init session api_id api_hash); [discriminate|].
    injection Hinit as <-.
    destruct (truthy_string_nonempty phone_number Hphone) as (p & -> & Hp).
    exists p. split; [exact Hp|]. intros force_sms phone_code_hash.
    split; reflexivity.
Qed.

(** [log_in] sends the password only after the sign-in with the code
    raised [SessionPasswordNeededError]; a client that is already
    authorized sends neither code nor password; any other exception of
    the first sign-in leaves [log_in] at once. *)
Theorem password_sent_only_when_needed (tc : Telegram.TelegramClient)
    (password code : option string) (authorized : bool)
    (sign_in : Telegram.request -> option Telegram.sign_in_error) :
  let first := Telegram.SignIn (Telegram._phone_number tc) code in
  let run := Telegram.log_in tc password code authorized sign_in in
  (In (Telegram.SignInPassword password) run.1 <->
   authorized = false /\
   sign_in first = Some Telegram.SessionPasswordNeededError) /\
  (In first run.1 <-> authorized = false) /\
  (authorized = true -> run = ([Telegram.IsUserAuthorized], None)) /\
  (authorized = false -> sign_in first = Some Telegram.OtherError ->
   run = ([Telegram.IsUserAuthorized; first], Some Telegram.OtherError)) /\
  (length run.1 <= 3)%nat.
Proof.
  intros first run. subst first run. unfold Telegram.log_in.
  destruct authorized; simpl.
  - intuition (try congruence; try lia).
  - destruct (sign_in _) as [[|]|] eqn:Hfirst; simpl;
      intuition (try congruence; try lia).
Qed.

(** * The virtual file *)

(** A virtual file cannot be made without a session: its client is
    made with no phone number, so the [ValueError] of line 98 ends
    [__init__] exactly when the session is falsy, whatever Telethon's
    constructor would do.  An object that is made holds in [self.tc]
    the coroutine, not yet awaited, of the [connect()] of a client
    without a phone number, has no downloader, and has the duration of
    the file, or 0 when the file has none. *)
Theorem virtual_file_needs_session
    (super_init : option Telegram.session_arg -> Z -> string ->
                  option Telegram.telethon_error)
    (gives : VirtualFile.connect_result) (doc : VirtualFile.Document)
    (file : VirtualFile.File) (session : option Telegram.session_arg)
    (api_id : Z) (api_hash : string) :
  (VirtualFile.init super_init gives doc file session api_id api_hash =
     Telegram.Refused <->
   Telegram.truthy_session session = false) /\
  (forall vf,
     VirtualFile.init super_init gives doc file session api_id api_hash =
       Telegram.Made vf ->
     Telegram.truthy_session session = true /\
     super_init session api_id api_hash = None /\
     VirtualFile.self_tc vf = VirtualFile.Coroutine (VirtualFile.client vf) /\
     Telegram._phone_number (VirtualFile.client vf) = None /\
     VirtualFile._client_initialized vf = false /\
     VirtualFile.downloader vf = None /\
     VirtualFile.duration vf = default 0 (VirtualFile.file_duration file)).
Proof.
  unfold VirtualFile.init, Telegram.init. simpl.
  destruct (Telegram.truthy_session session); simpl;
    [|split; [split; reflexivity | discriminate]].
  destruct (super_init session api_id api_hash) as [e|];
    (split; [split; discriminate|]); [discriminate|].
  intros vf [= <-]. unfold VirtualFile.self_tc. simpl. repeat split.
  destruct (VirtualFile.file_duration file) as [d|]; simpl; [|reflexivity].
  destruct (Z.eqb_spec d 0); congruence.
Qed.












(** * The further properties on sample data *)

(** Falsy [exported] entries and regex mode without patterns: the two
    box files of the source are yielded. *)
Lemma blank_filters_witness :
  truthy (Some false) = false /\ truthy None = false /\
  iter_from {| in_filters := blank (Some false) true;
               ex_filters := blank None false |} (Some mixed_source) None
    = Ok mixed_source /\
  search_generator (RL := MiniRe.lib)
    {| in_filters := blank (Some false) true; ex_filters := blank None false |}
    (Some mixed_source) None =
    (List.filter is_box_file mixed_source, None).
Proof.
  split; [reflexivity|]. split; [reflexivity|]. split; [reflexivity|].
  apply (blank_filters_yield_every_box_file (RL := MiniRe.lib)
           (Some false) None true false (Some mixed_source) None mixed_source);
    reflexivity.
Defined.

(** [include(mime=['image/png', 'image/jpeg'])] on a jpeg. *)
Lemma set_block_witness :
  (forall x, In x ["image/png"; "image/jpeg"] -> exists b, jpeg_test x = Ok b) /\
  set_block 0 jpeg_test ["image/png"; "image/jpeg"] = Ok Pass /\
  set_block 1 jpeg_test ["image/png"; "image/jpeg"] = Ok Fail.
Proof.
  assert (Htot : forall x, In x ["image/png"; "image/jpeg"] ->
            exists b, jpeg_test x = Ok b) by (intros x _; eexists; reflexivity).
  split; [exact Htot|].
  destruct (set_block_decides_by_any_match jpeg_test
              ["image/png"; "image/jpeg"] Htot) as (Hpass & _ & Hfail & _).
  assert (Hhit : exists x, In x ["image/png"; "image/jpeg"] /\
                           jpeg_test x = Ok true).
  { exists "image/jpeg". split; [simpl; auto | reflexivity]. }
  split; [apply Hpass; right; exact Hhit | apply Hfail; exact Hhit].
Defined.

(** The file uploaded at 1500 is yielded under [min_time = 1000]. *)
Lemma yielded_bounds_witness :
  In (RemoteBoxFile later_file)
    (search_generator (RL := MiniRe.lib) since_1000 (Some three_files) None).1 /\
  exists f file_size,
    probe (RemoteBoxFile later_file) = Some (f, file_size) /\
    forall rf b,
      (last (get_bounds rf (in_filters since_1000)) = Some b ->
       if is_lower rf then b <= range_value rf f file_size
       else range_value rf f file_size <= b) /\
      (last (get_bounds rf (ex_filters since_1000)) = Some b ->
       if is_lower rf then range_value rf f file_size < b
       else b < range_value rf f file_size).
Proof.
  assert (Hin : In (RemoteBoxFile later_file)
    (search_generator (RL := MiniRe.lib) since_1000 (Some three_files) None).1)
    by (vm_compute; auto).
  split; [exact Hin|].
  exact (yielded_files_respect_bounds (RL := MiniRe.lib) since_1000
           (Some three_files) None (RemoteBoxFile later_file) Hin).
Defined.

(** No id is at least 10 and at most 5. *)
Lemma contradictory_bounds_witness :
  (last (get_bounds (lower Ident) (in_filters ids_10_to_5)) = Some 10 /\
   last (get_bounds (upper Ident) (in_filters ids_10_to_5)) = Some 5 /\ 5 < 10) /\
  (search_generator (RL := MiniRe.lib) ids_10_to_5 (Some three_files) None).1 = [].
Proof.
  assert (Hbounds :
    last (get_bounds (lower Ident) (in_filters ids_10_to_5)) = Some 10 /\
    last (get_bounds (upper Ident) (in_filters ids_10_to_5)) = Some 5 /\ 5 < 10)
    by (repeat split; lia).
  split; [exact Hbounds|].
  apply (contradictory_bounds_yield_nothing (RL := MiniRe.lib) ids_10_to_5
           (Some three_files) None Ident 10 5).
  left. exact Hbounds.
Defined.

(** A file uploaded too early is rejected in regex mode although a
    later block of the include round and the exclude filter have a
    malformed pattern. *)
Lemma include_break_witness :
  fields = [Exported; Mime] ++ MinTime ::
           [MaxTime; MinSize; MaxSize; MinId; MaxId; Id; Cattrs; FilePath;
            FileName; FileSalt; Verbyte] /\
  (forall fd', In fd' [Exported; Mime] -> exists o,
     incl_test (RL := MiniRe.lib) regex_since_1000_star early_file 100 fd'
     = Ok o) /\
  incl_test (RL := MiniRe.lib) regex_since_1000_star early_file 100 MinTime
    = Ok FailBreak /\
  incl_test (RL := MiniRe.lib) regex_since_1000_star early_file 100 FileName
    = Raise ReError /\
  evaluate (RL := MiniRe.lib)
    {| in_filters := in_filters regex_since_1000_star; ex_filters := star_mime |}
    early_file 100 = Ok false.
Proof.
  assert (Htot : forall fd', In fd' [Exported; Mime] -> exists o,
     incl_test (RL := MiniRe.lib) regex_since_1000_star early_file 100 fd'
     = Ok o)
    by (intros fd' [<-|[<-|[]]]; eexists; vm_compute; reflexivity).
  split; [reflexivity|]. split; [exact Htot|]. split; [reflexivity|].
  split; [reflexivity|].
  apply (include_break_skips_exclude (RL := MiniRe.lib) regex_since_1000_star
           early_file 100 [Exported; Mime]
           [MaxTime; MinSize; MaxSize; MinId; MaxId; Id; Cattrs; FilePath;
            FileName; FileSalt; Verbyte] MinTime star_mime eq_refl Htot).
  reflexivity.
Defined.

(** The first pull skips the early file, yields the next one and
    leaves the last one unread. *)
Lemma first_pull_witness :
  next_file (RL := MiniRe.lib) since_1000
    [RemoteBoxFile early_file; RemoteBoxFile later_file; LocalBoxFile latest_file]
  = Ok (Some (RemoteBoxFile later_file, [LocalBoxFile latest_file])) /\
  generate (RL := MiniRe.lib) since_1000
    [RemoteBoxFile early_file; RemoteBoxFile later_file; LocalBoxFile latest_file]
  = (RemoteBoxFile later_file ::
       (generate (RL := MiniRe.lib) since_1000 [LocalBoxFile latest_file]).1,
     (generate (RL := MiniRe.lib) since_1000 [LocalBoxFile latest_file]).2).
Proof.
  split; [reflexivity|].
  apply (first_pull_is_lazy (RL := MiniRe.lib) since_1000
           [RemoteBoxFile early_file; RemoteBoxFile later_file;
            LocalBoxFile latest_file]
           [LocalBoxFile latest_file] (RemoteBoxFile later_file) eq_refl).
Defined.

(** A file with an empty dictionary of attributes, against a matcher
    that would raise on any call. *)
Lemma absent_keys_witness :
  BoxFile.cattrs file_without_k = Some ∅ /\
  (forall cattr kv, In cattr (Filter.cattrs k_is_star) -> In kv cattr ->
     (∅ : gmap string string) !! kv.1 = None) /\
  cattrs_block always_raises 0 k_is_star file_without_k = Ok Fail /\
  cattrs_block always_raises 1 k_is_star file_without_k = Ok Pass.
Proof.
  assert (Habsent : forall cattr kv,
            In cattr (Filter.cattrs k_is_star) -> In kv cattr ->
            (∅ : gmap string string) !! kv.1 = None)
    by (intros; apply lookup_empty).
  split; [reflexivity|]. split; [exact Habsent|].
  exact (cattrs_of_absent_keys_never_hit always_raises k_is_star
           file_without_k ∅ eq_refl Habsent).
Defined.


(** A client made from a phone number alone, Telethon's constructor
    raising nothing. *)
Lemma client_witness :
  Telegram.init (fun _ _ _ => None) 1234567 "00000000000000000000000000000000"
    (Some "+10000000000") None =
    Telegram.Made
      {| Telegram.session := None; Telegram._api_id := 1234567;
         Telegram._api_hash := "00000000000000000000000000000000";
         Telegram._phone_number := Some "+10000000000" |} /\
  Telegram.truthy_session None = false /\
  exists p, p <> "" /\
    forall force_sms phone_code_hash,
      Telegram.send_code
        {| Telegram.session := None; Telegram._api_id := 1234567;
           Telegram._api_hash := "00000000000000000000000000000000";
           Telegram._phone_number := Some "+10000000000" |} force_sms =
        Telegram.SendCodeRequest (Some p) force_sms /\
      Telegram.resend_code
        {| Telegram.session := None; Telegram._api_id := 1234567;
           Telegram._api_hash := "00000000000000000000000000000000";
           Telegram._phone_number := Some "+10000000000" |} phone_code_hash =
        Telegram.ResendCodeRequest (Some p) phone_code_hash.
Proof.
  split; [reflexivity|]. split; [reflexivity|].
  exact (proj2 (proj2 (client_without_session_has_phone (fun _ _ _ => None)
                  1234567 "00000000000000000000000000000000"
                  (Some "+10000000000") None))
           _ eq_refl eq_refl).
Defined.


